(** * Arb-visualizer: fee model, ROI calculator and cross-venue matcher

    A shallow embedding of the pricing and matching code of the
    repository, and the properties it has:

    - [client/src/pages/sentinel.tsx]: [calculatePlatformFee],
      [calculateScenarioRoi], [calculateBestRoi]        (module [Sentinel]);
    - [client/src/pages/arbitrage-calculator.tsx]:
      [calculatePlatformFee]                            (module [Calculator]);
    - [server/market-api.ts]: [extractEntities], [normalizeTitle],
      [extractTokens], [jaccardSimilarity], [extractEvents],
      [calculateSimilarity], [findArbitrageOpportunities]
                                                        (module [MarketApi]).

    Numbers.  The source computes on IEEE doubles.  The embedding computes
    on exact rationals ([Q]); the non-finite doubles that a division by
    zero produces are kept as separate constructors of [jsnum], and a loop
    that cannot exit is an absent result ([None]).  Equalities between
    rationals are stated with [==] ([Qeq]).  Where the rounding of
    doubles decides the outcome, the contract search of
    [calculateScenarioRoi], the code is embedded a second time on binary64
    numbers (modules [Double] and [SentinelDouble]).

    Strings.  Titles, venue names and ids are [string]s of 8-bit
    characters, read as ASCII text: [toLowerCase], [\w], [\s] and [\b]
    are the ASCII ones, and a character above 127 is neither a word
    character nor white space.

    The file has three parts: the embedding, the lemmas about it, and the
    theorems that settle the claims C1 to C10 of the specification. *)

From Stdlib Require Import ZArith QArith Qround Qabs Lqa Lia.
From Stdlib Require Import List String Ascii Bool Permutation Sorted.
From Stdlib Require Import SpecFloat.
Import ListNotations.

Open Scope Q_scope.

(* ================================================================= *)
(** * JavaScript numbers and strings *)

(** The results of [/] on finite operands: a finite quotient, or one of
    the three non-finite doubles when the divisor is zero. *)
Inductive jsnum : Type :=
| Fin (q : Q)
| PosInf
| NegInf
| NaN.

(** [a / b] on finite doubles, exactly. *)
Definition jsdiv (a b : Q) : jsnum :=
  if Qeq_bool b 0 then
    match Qcompare a 0 with
    | Gt => PosInf
    | Lt => NegInf
    | Eq => NaN
    end
  else Fin (a / b).

(** [x * k] for a finite, strictly positive constant [k]. *)
Definition jsscale (x : jsnum) (k : Q) : jsnum :=
  match x with
  | Fin q => Fin (q * k)
  | other => other
  end.

(** [x >= y]; every comparison with [NaN] is false. *)
Definition jsge (x y : jsnum) : bool :=
  match x, y with
  | NaN, _ | _, NaN => false
  | PosInf, _ => true
  | _, NegInf => true
  | Fin a, Fin b => Qle_bool b a
  | Fin _, PosInf => false
  | NegInf, _ => false
  end.

(** [Math.max(x, y)]: [NaN] if either argument is. *)
Definition jsmax (x y : jsnum) : jsnum :=
  match x, y with
  | NaN, _ | _, NaN => NaN
  | _, _ => if jsge x y then x else y
  end.

(** Strict order on rationals as a boolean. *)
Definition Qlt_bool (a b : Q) : bool := negb (Qle_bool b a).

Definition lowerAscii (c : ascii) : ascii :=
  let n := nat_of_ascii c in
  if ((65 <=? n) && (n <=? 90))%nat then ascii_of_nat (n + 32) else c.

Definition upperAscii (c : ascii) : ascii :=
  let n := nat_of_ascii c in
  if ((97 <=? n) && (n <=? 122))%nat then ascii_of_nat (n - 32) else c.

(** [String.prototype.toLowerCase]. *)
Fixpoint toLowerCase (s : string) : string :=
  match s with
  | EmptyString => EmptyString
  | String c rest => String (lowerAscii c) (toLowerCase rest)
  end.

(** [s.startsWith(p)]. *)
Fixpoint startsWith (p s : string) : bool :=
  match p, s with
  | EmptyString, _ => true
  | String _ _, EmptyString => false
  | String a p', String b s' => Ascii.eqb a b && startsWith p' s'
  end.

(** [s.includes(p)]. *)
Fixpoint includes (s p : string) : bool :=
  startsWith p s ||
  match s with
  | EmptyString => false
  | String _ s' => includes s' p
  end.

(** The order type of the two calculators, ["Maker" | "Taker"]. *)
Inductive OrderMode : Type := Maker | Taker.

(* ================================================================= *)
(** * client/src/pages/sentinel.tsx *)

Module Sentinel.

(** [calculatePlatformFee(platform, price, contracts, mode)]. *)
Definition calculatePlatformFee
    (platform : string) (price contracts : Q) (mode : OrderMode) : Q :=
  let platformLower := toLowerCase platform in
  if (platformLower =? "kalshi")%string then
    match mode with
    | Maker => 0
    | Taker => 0.07 * price * (1 - price) * contracts
    end
  else if (platformLower =? "polymarket")%string then
    (price * contracts) * 0.0001
  else if (platformLower =? "predictit")%string then
    (1.0 - price) * contracts * 0.10
  else if ((platformLower =? "ibkr") || (platformLower =? "ibkr forecast"))%string then
    contracts * 0.01
  else 0.

(** [(baseCost * maxContracts) + feeA + feeB]: what [maxContracts] pairs
    cost, fees included.  The source computes it as [totalCost] inside the
    loop and again as [totalInvested] after it. *)
Definition totalCost
    (platformA : string) (priceA : Q) (platformB : string) (priceB : Q)
    (mode : OrderMode) (maxContracts : Z) : Q :=
  let baseCost := priceA + priceB in
  let feeA := calculatePlatformFee platformA priceA (inject_Z maxContracts) mode in
  let feeB := calculatePlatformFee platformB priceB (inject_Z maxContracts) mode in
  (baseCost * inject_Z maxContracts) + feeA + feeB.

(** [netProfit = payout - totalInvested], with [payout = maxContracts]. *)
Definition netProfit
    (platformA : string) (priceA : Q) (platformB : string) (priceB : Q)
    (mode : OrderMode) (maxContracts : Z) : Q :=
  let totalInvested := totalCost platformA priceA platformB priceB mode maxContracts in
  let payout := inject_Z maxContracts in
  payout - totalInvested.

(** The loop
    [while (maxContracts > 0) { if (totalCost <= investment) break; maxContracts--; }]
    started at a count [maxContracts >= 0]; the result is the value of the
    variable at loop exit. *)
Fixpoint decrementLoop (cost : Z -> Q) (investment : Q) (maxContracts : nat) : nat :=
  match maxContracts with
  | O => O
  | S k =>
      if Qle_bool (cost (Z.of_nat maxContracts)) investment then maxContracts
      else decrementLoop cost investment k
  end.

(** The contract count the search settles on:
    [Math.floor(investment / baseCost)] followed by the decrementing loop.
    A start at or below zero skips the loop.  [None]: the quotient is not
    a finite number ([baseCost] is zero); with a positive investment the
    counter is [Infinity] and the loop does not exit.  Quotient and totals
    are exact here; the same search with the rounding of doubles is
    [SentinelDouble.maxContracts]. *)
Definition maxContracts
    (platformA : string) (priceA : Q) (platformB : string) (priceB : Q)
    (investment : Q) (mode : OrderMode) : option Z :=
  let baseCost := priceA + priceB in
  match jsdiv investment baseCost with
  | Fin q =>
      let start := Qfloor q in
      if (0 <? start)%Z then
        Some (Z.of_nat (decrementLoop (totalCost platformA priceA platformB priceB mode)
                                      investment (Z.to_nat start)))
      else Some start
  | _ => None
  end.

(** [calculateScenarioRoi(platformA, priceA, platformB, priceB, investment, mode)].
    [None] when the loop does not exit. *)
Definition calculateScenarioRoi
    (platformA : string) (priceA : Q) (platformB : string) (priceB : Q)
    (investment : Q) (mode : OrderMode) : option jsnum :=
  let baseCost := priceA + priceB in
  if Qle_bool 1.0 baseCost then Some (Fin 0.0)
  else if Qle_bool investment 0 then Some (Fin 0)
  else
    match maxContracts platformA priceA platformB priceB investment mode with
    | None => None
    | Some n =>
        if (n <=? 0)%Z then Some (Fin 0)
        else
          let totalInvested := totalCost platformA priceA platformB priceB mode n in
          let netProfit := netProfit platformA priceA platformB priceB mode n in
          Some (jsscale (jsdiv netProfit totalInvested) 100)
    end.

(** The result object of [calculateBestRoi]. *)
Record BestRoi : Type := mkBestRoi {
  roi : jsnum;
  scenario : nat;
  feeA : Q;
  feeB : Q
}.

(** [calculateBestRoi(platformA, priceAYes, platformB, priceBYes, investment, mode)].
    The fee breakdown re-runs the search for the better scenario; with
    [baseCost >= 1] the contract count is 0.  [None]: one of the two
    scenario evaluations does not return, or the contract count of the
    breakdown is not a finite number ([baseCost] is zero: the loop does not
    exit when the investment is positive, and the fees are computed on a
    non-finite count otherwise). *)
Definition calculateBestRoi
    (platformA : string) (priceAYes : Q) (platformB : string) (priceBYes : Q)
    (investment : Q) (mode : OrderMode) : option BestRoi :=
  match calculateScenarioRoi platformA priceAYes platformB (1 - priceBYes) investment mode,
        calculateScenarioRoi platformA (1 - priceAYes) platformB priceBYes investment mode with
  | Some roi1, Some roi2 =>
      let bestScenario := if jsge roi1 roi2 then 1%nat else 2%nat in
      let bestPriceA := if (bestScenario =? 1)%nat then priceAYes else 1 - priceAYes in
      let bestPriceB := if (bestScenario =? 1)%nat then 1 - priceBYes else priceBYes in
      let baseCost := bestPriceA + bestPriceB in
      let contracts :=
        if Qlt_bool baseCost 1
        then maxContracts platformA bestPriceA platformB bestPriceB investment mode
        else Some 0%Z in
      match contracts with
      | None => None
      | Some c =>
          Some {| roi := jsmax roi1 roi2;
                  scenario := bestScenario;
                  feeA := calculatePlatformFee platformA bestPriceA (inject_Z c) mode;
                  feeB := calculatePlatformFee platformB bestPriceB (inject_Z c) mode |}
      end
  | _, _ => None
  end.

End Sentinel.

(* ================================================================= *)
(** * client/src/pages/arbitrage-calculator.tsx *)

Module Calculator.

(** [calculatePlatformFee(platform, price, contracts, mode)]. *)
Definition calculatePlatformFee
    (platform : string) (price contracts : Q) (mode : OrderMode) : Q :=
  let platformLower := toLowerCase platform in
  if (platformLower =? "kalshi")%string then
    match mode with
    | Maker => 0
    | Taker => 0.07 * price * (1 - price) * contracts
    end
  else if (platformLower =? "polymarket")%string then
    0
  else if (platformLower =? "predictit")%string then
    (1.0 - price) * contracts * 0.10
  else if includes platformLower "ibkr" || includes platformLower "forecastex" then
    0.01 * contracts
  else 0.

End Calculator.

(* ================================================================= *)
(** * The contract search on binary64 doubles *)

(** IEEE 754 binary64 numbers, as the Standard Library specifies them
    ([SpecFloat], rounding to nearest, ties to even): the arithmetic of a
    JavaScript [number]. *)
Module Double.

Local Open Scope Z_scope.

Definition double : Type := spec_float.

Definition prec : Z := 53.
Definition emax : Z := 1024.

Definition add : double -> double -> double := SFadd prec emax.
Definition sub : double -> double -> double := SFsub prec emax.
Definition mul : double -> double -> double := SFmul prec emax.
Definition div : double -> double -> double := SFdiv prec emax.

(** [x < y] and [x <= y]; both are [false] when an operand is [NaN]. *)
Definition ltb : double -> double -> bool := SFltb.
Definition leb : double -> double -> bool := SFleb.

(** The double nearest to an integer; exact up to [2^53]. *)
Definition ofZ (n : Z) : double := binary_normalize prec emax n 0 false.

Definition zero : double := S754_zero false.
Definition one : double := ofZ 1.

(** The double a decimal literal denotes: [decimal 825 2] is [8.25].  For
    [digits] and [10 ^ scale] below [2^53] both operands are exact and the
    quotient is rounded once, as the literal is. *)
Definition decimal (digits : Z) (scale : nat) : double :=
  div (ofZ digits) (ofZ (10 ^ Z.of_nat scale)).

(** [Math.floor(x)]. *)
Definition floor (x : double) : double :=
  match x with
  | S754_finite s m e =>
      if 0 <=? e then x
      else ofZ ((if s then Z.neg m else Z.pos m) / 2 ^ (- e))
  | _ => x
  end.

(** The rational a finite double stands for. *)
Definition toQ (x : double) : option Q :=
  match x with
  | S754_zero _ => Some (inject_Z 0)
  | S754_finite s m e =>
      let n := if s then Z.neg m else Z.pos m in
      Some (if 0 <=? e then inject_Z (n * 2 ^ e) else Qmake n (Z.to_pos (2 ^ (- e))))
  | _ => None
  end.

End Double.

(** [calculatePlatformFee] and the contract search of
    [calculateScenarioRoi] of [sentinel.tsx], on doubles and in the
    source's order of operations. *)
Module SentinelDouble.

Import Double.

(** [calculatePlatformFee(platform, price, contracts, mode)]. *)
Definition calculatePlatformFee
    (platform : string) (price contracts : double) (mode : OrderMode) : double :=
  let platformLower := toLowerCase platform in
  if (platformLower =? "kalshi")%string then
    match mode with
    | Maker => zero
    | Taker => mul (mul (mul (decimal 7 2) price) (sub one price)) contracts
    end
  else if (platformLower =? "polymarket")%string then
    mul (mul price contracts) (decimal 1 4)
  else if (platformLower =? "predictit")%string then
    mul (mul (sub one price) contracts) (decimal 10 2)
  else if ((platformLower =? "ibkr") || (platformLower =? "ibkr forecast"))%string then
    mul contracts (decimal 1 2)
  else zero.

(** [(baseCost * maxContracts) + feeA + feeB]. *)
Definition totalCost
    (platformA : string) (priceA : double) (platformB : string) (priceB : double)
    (mode : OrderMode) (maxContracts : double) : double :=
  let baseCost := add priceA priceB in
  let feeA := calculatePlatformFee platformA priceA maxContracts mode in
  let feeB := calculatePlatformFee platformB priceB maxContracts mode in
  add (add (mul baseCost maxContracts) feeA) feeB.

(** The loop
    [while (maxContracts > 0) { if (totalCost <= investment) break; maxContracts--; }]
    with the counter held as the double it is.  [fuel] bounds the number
    of tests of the loop condition; [None]: the loop has not exited
    within it. *)
Fixpoint decrementLoop
    (fuel : nat) (cost : double -> double) (investment maxContracts : double)
    : option double :=
  match fuel with
  | O => None
  | S fuel' =>
      if ltb zero maxContracts then
        if leb (cost maxContracts) investment then Some maxContracts
        else decrementLoop fuel' cost investment (sub maxContracts one)
      else Some maxContracts
  end.

(** The value of [maxContracts] when the loop exits:
    [Math.floor(investment / baseCost)] followed by the loop. *)
Definition maxContracts
    (fuel : nat)
    (platformA : string) (priceA : double) (platformB : string) (priceB : double)
    (investment : double) (mode : OrderMode) : option double :=
  let baseCost := add priceA priceB in
  decrementLoop fuel (totalCost platformA priceA platformB priceB mode) investment
                (floor (div investment baseCost)).

End SentinelDouble.

(** The inequality of the specification,
    [n x baseCost + fee(A, priceA, n) + fee(B, priceB, n) <= investment],
    read in exact arithmetic at the values the doubles stand for. *)
Definition affordable
    (platformA : string) (priceA : Double.double)
    (platformB : string) (priceB : Double.double)
    (mode : OrderMode) (investment : Double.double) (n : Z) : Prop :=
  exists a b i : Q,
    Double.toQ priceA = Some a /\ Double.toQ priceB = Some b /\
    Double.toQ investment = Some i /\
    Sentinel.totalCost platformA a platformB b mode n <= i.

(* ================================================================= *)
(** * The fee-free computation of the spec *)

(** The scenario ROI as the spec words it for the gross figure: the
    computation of [calculateScenarioRoi] with both fees identically zero.
    It is compared with [Sentinel.calculateScenarioRoi] below. *)
Definition grossScenarioRoi (priceA priceB investment : Q) : option jsnum :=
  let baseCost := priceA + priceB in
  if Qle_bool 1 baseCost then Some (Fin 0)
  else if Qle_bool investment 0 then Some (Fin 0)
  else
    match jsdiv investment baseCost with
    | Fin q =>
        let start := Qfloor q in
        let n :=
          if (0 <? start)%Z
          then Z.of_nat (Sentinel.decrementLoop (fun k => baseCost * inject_Z k + 0 + 0)
                                                investment (Z.to_nat start))
          else start in
        if (n <=? 0)%Z then Some (Fin 0)
        else
          let totalInvested := baseCost * inject_Z n + 0 + 0 in
          Some (jsscale (jsdiv (inject_Z n - totalInvested) totalInvested) 100)
    | _ => None
    end.

(** Two numbers are the same double: equal rationals, or the same
    non-finite value. *)
Definition jsnum_eq (x y : jsnum) : Prop :=
  match x, y with
  | Fin a, Fin b => a == b
  | PosInf, PosInf | NegInf, NegInf | NaN, NaN => True
  | _, _ => False
  end.

(** Two calls behave alike: both return the same number, or neither
    returns. *)
Definition same_result (x y : option jsnum) : Prop :=
  match x, y with
  | Some a, Some b => jsnum_eq a b
  | None, None => True
  | _, _ => False
  end.

(* ================================================================= *)
(** * Regular expressions

    The fragment of JavaScript regular expressions that the matcher's
    patterns use, with the backtracking semantics of the language:
    alternatives are tried left to right, quantifiers are greedy, a search
    reports the leftmost match. *)

Inductive regex : Type :=
| Eps                              (* the empty pattern *)
| Chr (c : ascii)                  (* a literal character *)
| Dot                              (* [.]: anything but a line terminator *)
| Digit                            (* [\d] *)
| Space                            (* [\s] *)
| Symbol                           (* [[^\w\s]] *)
| Range (lo hi : ascii)            (* [[lo-hi]] *)
| WordBoundary                     (* [\b] *)
| Seq (r1 r2 : regex)
| Alt (r1 r2 : regex)
| Star (r : regex)                 (* [r*] *)
| Opt (r : regex).                 (* [r?] *)

(** [r+]. *)
Definition Plus (r : regex) : regex := Seq r (Star r).

(** A string as a pattern: its characters in sequence. *)
Fixpoint lit (s : string) : regex :=
  match s with
  | EmptyString => Eps
  | String c EmptyString => Chr c
  | String c rest => Seq (Chr c) (lit rest)
  end.

(** [r1|r2|...|rn]. *)
Fixpoint alts (rs : list regex) : regex :=
  match rs with
  | [] => Eps
  | [r] => r
  | r :: rest => Alt r (alts rest)
  end.

(** [r1 r2 ... rn]. *)
Fixpoint seqs (rs : list regex) : regex :=
  match rs with
  | [] => Eps
  | [r] => r
  | r :: rest => Seq r (seqs rest)
  end.

(** [\bliteral\b]. *)
Definition word (s : string) : regex := seqs [WordBoundary; lit s; WordBoundary].

Definition isDigit (c : ascii) : bool :=
  let n := nat_of_ascii c in ((48 <=? n) && (n <=? 57))%nat.

(** [\w]: letters, digits and the underscore. *)
Definition isWordChar (c : ascii) : bool :=
  let n := nat_of_ascii c in
  (((48 <=? n) && (n <=? 57)) || ((65 <=? n) && (n <=? 90)) ||
   ((97 <=? n) && (n <=? 122)) || (n =? 95))%nat.

(** [\s]: tab, line feed, vertical tab, form feed, carriage return, space. *)
Definition isSpace (c : ascii) : bool :=
  let n := nat_of_ascii c in (((9 <=? n) && (n <=? 13)) || (n =? 32))%nat.

Definition isLineTerminator (c : ascii) : bool :=
  let n := nat_of_ascii c in ((n =? 10) || (n =? 13))%nat.

(** Is the position between [prev] and the head of [s] a word boundary? *)
Definition atWordBoundary (prev : option ascii) (s : string) : bool :=
  let before := match prev with Some c => isWordChar c | None => false end in
  let after := match s with String c _ => isWordChar c | EmptyString => false end in
  xorb before after.

(** One character against a one-character pattern; [ci] is the [i] flag. *)
Definition charMatches (ci : bool) (r : regex) (x : ascii) : bool :=
  match r with
  | Chr c => if ci then Ascii.eqb (lowerAscii c) (lowerAscii x) else Ascii.eqb c x
  | Dot => negb (isLineTerminator x)
  | Digit => isDigit x
  | Space => isSpace x
  | Symbol => negb (isWordChar x) && negb (isSpace x)
  | Range lo hi =>
      let inRange y := ((nat_of_ascii lo <=? nat_of_ascii y) &&
                        (nat_of_ascii y <=? nat_of_ascii hi))%nat in
      if ci then inRange (lowerAscii x) || inRange (upperAscii x) else inRange x
  | _ => false
  end.

(** [matchAt ci r prev s k]: match [r] at the head of [s] ([prev] is the
    character before it), then hand the rest to the continuation [k];
    the first success in backtracking order is the result.  An iteration
    of [r*] that consumes nothing is not taken. *)
Fixpoint matchAt (ci : bool) (r : regex) (prev : option ascii) (s : string)
    (k : option ascii -> string -> option string) {struct r} : option string :=
  match r with
  | Eps => k prev s
  | Chr _ | Dot | Digit | Space | Symbol | Range _ _ =>
      match s with
      | String x rest => if charMatches ci r x then k (Some x) rest else None
      | EmptyString => None
      end
  | WordBoundary => if atWordBoundary prev s then k prev s else None
  | Seq r1 r2 => matchAt ci r1 prev s (fun prev' s' => matchAt ci r2 prev' s' k)
  | Alt r1 r2 =>
      match matchAt ci r1 prev s k with
      | Some rest => Some rest
      | None => matchAt ci r2 prev s k
      end
  | Opt r1 =>
      match matchAt ci r1 prev s k with
      | Some rest => Some rest
      | None => k prev s
      end
  | Star r1 =>
      (fix iterate (fuel : nat) (prev : option ascii) (s : string) : option string :=
         match fuel with
         | O => k prev s
         | S fuel' =>
             match matchAt ci r1 prev s
                     (fun prev' s' =>
                        if (String.length s' <? String.length s)%nat
                        then iterate fuel' prev' s' else None) with
             | Some rest => Some rest
             | None => k prev s
             end
         end) (String.length s) prev s
  end.

(** The last character of [prev :: s]. *)
Fixpoint lastChar (prev : option ascii) (s : string) : option ascii :=
  match s with
  | EmptyString => prev
  | String c rest => lastChar (Some c) rest
  end.

(** The leftmost match of [r] in [s]: the text before it, the matched
    text and the text after it. *)
Fixpoint search (ci : bool) (r : regex) (prev : option ascii) (s : string)
    : option (string * string * string) :=
  match matchAt ci r prev s (fun _ rest => Some rest) with
  | Some rest =>
      Some (EmptyString, substring 0 (String.length s - String.length rest) s, rest)
  | None =>
      match s with
      | EmptyString => None
      | String c s' =>
          match search ci r (Some c) s' with
          | Some (before, matched, after) => Some (String c before, matched, after)
          | None => None
          end
      end
  end.

(** [r.test(s)]. *)
Definition test (ci : bool) (r : regex) (s : string) : bool :=
  match search ci r None s with
  | Some _ => true
  | None => false
  end.

(** [s.match(r)] with the [g] flag: every match, left to right, each
    search resuming where the previous match ended (one character further
    after an empty match).  The empty list stands for [null]. *)
Fixpoint matchAllFrom (fuel : nat) (ci : bool) (r : regex) (prev : option ascii)
    (s : string) : list string :=
  match fuel with
  | O => []
  | S fuel' =>
      match search ci r prev s with
      | None => []
      | Some (before, matched, after) =>
          let prev' := lastChar prev (before ++ matched) in
          match matched, after with
          | EmptyString, EmptyString => [matched]
          | EmptyString, String c after' =>
              matched :: matchAllFrom fuel' ci r (Some c) after'
          | _, _ => matched :: matchAllFrom fuel' ci r prev' after
          end
      end
  end.

Definition matchAll (ci : bool) (r : regex) (s : string) : list string :=
  matchAllFrom (S (String.length s)) ci r None s.

(** [s.replace(r, by)] with the [g] flag. *)
Fixpoint replaceAllFrom (fuel : nat) (ci : bool) (r : regex) (by_ : string)
    (prev : option ascii) (s : string) : string :=
  match fuel with
  | O => s
  | S fuel' =>
      match search ci r prev s with
      | None => s
      | Some (before, matched, after) =>
          let prev' := lastChar prev (before ++ matched) in
          match matched, after with
          | EmptyString, EmptyString => before ++ by_
          | EmptyString, String c after' =>
              before ++ by_ ++ String c (replaceAllFrom fuel' ci r by_ (Some c) after')
          | _, _ => before ++ by_ ++ replaceAllFrom fuel' ci r by_ prev' after
          end
      end
  end.

Definition replaceAll (ci : bool) (r : regex) (by_ : string) (s : string) : string :=
  replaceAllFrom (S (String.length s)) ci r by_ None s.

(* ================================================================= *)
(** * JavaScript sets, arrays and string helpers *)

(** Membership in an array of strings ([includes], [Set.has]). *)
Definition mem (x : string) (l : list string) : bool := existsb (String.eqb x) l.

(** A [Set<string>] is the list of its elements in insertion order. *)
Definition setAdd (x : string) (set : list string) : list string :=
  if mem x set then set else set ++ [x].

(** [new Set(array)]. *)
Definition newSet (array : list string) : list string :=
  fold_left (fun set x => setAdd x set) array [].

(** [array.join(sep)]. *)
Fixpoint join (sep : string) (array : list string) : string :=
  match array with
  | [] => EmptyString
  | [x] => x
  | x :: rest => x ++ sep ++ join sep rest
  end.

(** [s.endsWith(suffix)]. *)
Definition endsWith (s suffix : string) : bool :=
  let n := String.length s in
  let m := String.length suffix in
  (m <=? n)%nat && String.eqb (substring (n - m) m s) suffix.

Fixpoint trimStart (s : string) : string :=
  match s with
  | String c rest => if isSpace c then trimStart rest else s
  | EmptyString => s
  end.

(** The string without its trailing white space. *)
Fixpoint trimEnd (s : string) : string :=
  match s with
  | EmptyString => EmptyString
  | String c rest =>
      match trimEnd rest with
      | EmptyString => if isSpace c then EmptyString else String c EmptyString
      | rest' => String c rest'
      end
  end.

(** [s.trim()]. *)
Definition trim (s : string) : string := trimEnd (trimStart s).

(** [s.split(/\s+/)]: the pieces between maximal runs of white space; a
    run at either end leaves an empty piece there, and the empty string
    splits into one empty piece. *)
Fixpoint splitWhitespace (piece : string) (inRun : bool) (s : string) : list string :=
  match s with
  | EmptyString => [piece]
  | String c rest =>
      if isSpace c then
        if inRun then splitWhitespace EmptyString true rest
        else piece :: splitWhitespace EmptyString true rest
      else splitWhitespace (piece ++ String c EmptyString) false rest
  end.

(** The leading decimal digits of [s], and what follows them. *)
Fixpoint takeDigits (s : string) : string * string :=
  match s with
  | String c rest =>
      if isDigit c then let (digits, tail) := takeDigits rest in (String c digits, tail)
      else (EmptyString, s)
  | EmptyString => (EmptyString, EmptyString)
  end.

Fixpoint stripLeadingZeros (digits : string) : string :=
  match digits with
  | String "0" (String _ _ as rest) => stripLeadingZeros rest
  | _ => digits
  end.

Fixpoint stripTrailingZeros (digits : string) : string :=
  match digits with
  | EmptyString => EmptyString
  | String c rest =>
      match stripTrailingZeros rest with
      | EmptyString => if Ascii.eqb c "0" then EmptyString else String c EmptyString
      | rest' => String c rest'
      end
  end.

(** [(parseFloat(s) * 1000).toString()] for a token [s] that starts with
    [digits] or [digits.digits]: the decimal point moves three places to
    the right and the result is written as a plain decimal, without
    leading or trailing zeros.  This is the string JavaScript prints
    whenever the product is computed without rounding and lies in
    [1e-6, 1e21). *)
Definition timesThousand (s : string) : string :=
  let (intDigits, rest) := takeDigits s in
  let fracDigits :=
    match rest with
    | String "." rest' => fst (takeDigits rest')
    | _ => EmptyString
    end in
  let padded := (fracDigits ++ "000")%string in
  let whole := stripLeadingZeros (intDigits ++ substring 0 3 padded) in
  let frac := stripTrailingZeros (substring 3 (String.length fracDigits - 3) fracDigits) in
  match frac with
  | EmptyString => whole
  | _ => (whole ++ "." ++ frac)%string
  end.

(** [array.sort(compareFn)] as a stable insertion sort: each element is
    put in front of the first element already placed that the comparator
    orders after it.  [after y x] reads [compareFn(y, x) > 0].  For a
    comparator that is a consistent order this is the order every
    conforming engine produces; for one that is not, the language only
    promises some permutation of the array. *)
Fixpoint insertBy {A : Type} (after : A -> A -> bool) (x : A) (sorted : list A) : list A :=
  match sorted with
  | [] => [x]
  | y :: rest => if after y x then x :: sorted else y :: insertBy after x rest
  end.

Definition sortBy {A : Type} (after : A -> A -> bool) (array : list A) : list A :=
  fold_left (fun sorted x => insertBy after x sorted) array [].

(* ================================================================= *)
(** * server/market-api.ts *)

Module MarketApi.

Local Open Scope string_scope.

(** The venue of a listing, ["Kalshi" | "Polymarket" | "PredictIt"]. *)
Inductive Platform : Type := Kalshi | Polymarket | PredictIt.

Definition platform_eqb (p q : Platform) : bool :=
  match p, q with
  | Kalshi, Kalshi | Polymarket, Polymarket | PredictIt, PredictIt => true
  | _, _ => false
  end.

(** [StandardizedMarket], with the fields the matcher reads (the
    category, the timestamp, the binary-outcome labels and the URL are
    carried along untouched by the source and left out here). *)
Record StandardizedMarket : Type := mkMarket {
  id : string;
  platform : Platform;
  title : string;
  yesPrice : Q;
  noPrice : Q;
  volume : Q
}.

(** [ArbitrageOpportunity]. *)
Record ArbitrageOpportunity : Type := mkOpportunity {
  marketA : StandardizedMarket;
  marketB : StandardizedMarket;
  combinedYesCost : Q;
  potentialProfit : Q;
  roi : jsnum;
  matchScore : Z;
  matchReason : string
}.

(** [SPECIFIC_EVENT_PATTERNS]: every pattern of an entry must match.
    All patterns carry the [i] flag. *)
Definition SPECIFIC_EVENT_PATTERNS : list (list regex * string) :=
  let fed := Alt (lit "fed") (lit "federal reserve") in
  let bitcoin := Alt (lit "bitcoin") (lit "btc") in
  let target (n : string) :=
    Alt (seqs [lit n; Star Dot; lit "k"]) (seqs [lit n; Opt (lit ","); lit "000"]) in
  let sp := Alt (lit "s&p") (lit "sp500") in
  [ ([lit "recession"; lit "2025"], "recession-2025");
    ([lit "recession"; lit "2026"], "recession-2026");
    ([fed; lit "rate"; lit "cut"], "fed-rate-cut");
    ([fed; lit "rate"; Alt (lit "hike") (lit "raise")], "fed-rate-hike");
    ([bitcoin; target "100"], "bitcoin-100k");
    ([bitcoin; target "150"], "bitcoin-150k");
    ([bitcoin; target "200"], "bitcoin-200k");
    ([lit "trump"; lit "tariff"; lit "china"], "trump-tariffs-china");
    ([lit "trump"; lit "deport"; lit "million"], "trump-deportation-million");
    ([Alt (lit "doge") (lit "musk");
      Alt (seqs [lit "federal"; Star Dot; lit "employee"])
          (seqs [lit "employee"; Star Dot; lit "federal"])], "doge-employees");
    ([lit "super bowl"; lit "chiefs"], "superbowl-chiefs");
    ([lit "super bowl"; lit "eagles"], "superbowl-eagles");
    ([lit "world cup"; Alt (lit "usa") (lit "united states"); lit "2026"], "worldcup-usa-2026");
    ([sp; lit "6000"], "sp500-6000");
    ([sp; lit "7000"], "sp500-7000") ].

(** The result of [extractEntities]. *)
Record Entities : Type := mkEntities {
  names : list string;
  numbers : list string;
  years : list string;
  party : option string;
  states : list string;
  timeFrames : list string
}.

(** [/\b(202[4-9]|203[0-9])\b/g] *)
Definition yearPattern : regex :=
  seqs [WordBoundary;
        Alt (Seq (lit "202") (Range "4" "9")) (Seq (lit "203") (Range "0" "9"));
        WordBoundary].

(** [/\b\d+(?:\.\d+)?%?k?\b/g] *)
Definition numberPattern : regex :=
  seqs [WordBoundary; Plus Digit; Opt (Seq (lit ".") (Plus Digit));
        Opt (lit "%"); Opt (lit "k"); WordBoundary].

(** [/republican|gop|rnc|r\b/i] *)
Definition republicanPattern : regex :=
  alts [lit "republican"; lit "gop"; lit "rnc"; Seq (lit "r") WordBoundary].

(** [/democrat|dnc|dem\b|d\b/i] *)
Definition democratPattern : regex :=
  alts [lit "democrat"; lit "dnc"; Seq (lit "dem") WordBoundary; Seq (lit "d") WordBoundary].

Definition stateMap : list (string * list string) :=
  [ ("alabama", ["alabama"; "al"]);
    ("alaska", ["alaska"; "ak"]);
    ("arizona", ["arizona"; "az"]);
    ("arkansas", ["arkansas"; "ar"]);
    ("california", ["california"; "ca"; "calif"]);
    ("colorado", ["colorado"; "co"; "colo"]);
    ("connecticut", ["connecticut"; "ct"; "conn"]);
    ("delaware", ["delaware"; "de"; "del"]);
    ("florida", ["florida"; "fl"; "fla"]);
    ("georgia", ["georgia"; "ga"]);
    ("hawaii", ["hawaii"; "hi"]);
    ("idaho", ["idaho"; "id"]);
    ("illinois", ["illinois"; "il"; "ill"]);
    ("indiana", ["indiana"; "in"; "ind"]);
    ("iowa", ["iowa"; "ia"]);
    ("kansas", ["kansas"; "ks"; "kan"]);
    ("kentucky", ["kentucky"; "ky"]);
    ("louisiana", ["louisiana"; "la"]);
    ("maine", ["maine"; "me"]);
    ("maryland", ["maryland"; "md"]);
    ("massachusetts", ["massachusetts"; "ma"; "mass"]);
    ("michigan", ["michigan"; "mi"; "mich"]);
    ("minnesota", ["minnesota"; "mn"; "minn"]);
    ("mississippi", ["mississippi"; "ms"; "miss"]);
    ("missouri", ["missouri"; "mo"]);
    ("montana", ["montana"; "mt"; "mont"]);
    ("nebraska", ["nebraska"; "ne"; "neb"]);
    ("nevada", ["nevada"; "nv"; "nev"]);
    ("new hampshire", ["new hampshire"; "nh"; "n h"]);
    ("new jersey", ["new jersey"; "nj"; "n j"]);
    ("new mexico", ["new mexico"; "nm"; "n m"]);
    ("new york", ["new york"; "ny"; "n y"]);
    ("north carolina", ["north carolina"; "nc"; "n c"]);
    ("north dakota", ["north dakota"; "nd"; "n d"]);
    ("ohio", ["ohio"; "oh"]);
    ("oklahoma", ["oklahoma"; "ok"; "okla"]);
    ("oregon", ["oregon"; "or"; "ore"]);
    ("pennsylvania", ["pennsylvania"; "pa"; "penn"]);
    ("rhode island", ["rhode island"; "ri"; "r i"]);
    ("south carolina", ["south carolina"; "sc"; "s c"]);
    ("south dakota", ["south dakota"; "sd"; "s d"]);
    ("tennessee", ["tennessee"; "tn"; "tenn"]);
    ("texas", ["texas"; "tx"; "tex"]);
    ("utah", ["utah"; "ut"]);
    ("vermont", ["vermont"; "vt"]);
    ("virginia", ["virginia"; "va"]);
    ("washington", ["washington"; "wa"; "wash"]);
    ("west virginia", ["west virginia"; "wv"; "w va"]);
    ("wisconsin", ["wisconsin"; "wi"; "wis"]);
    ("wyoming", ["wyoming"; "wy"; "wyo"]) ].

(** [/\b(q[1-4]|quarter\s*[1-4]|first\s*quarter|second\s*quarter|third\s*quarter|fourth\s*quarter)\b/gi] *)
Definition quarterPattern : regex :=
  seqs [WordBoundary;
        alts [Seq (lit "q") (Range "1" "4");
              seqs [lit "quarter"; Star Space; Range "1" "4"];
              seqs [lit "first"; Star Space; lit "quarter"];
              seqs [lit "second"; Star Space; lit "quarter"];
              seqs [lit "third"; Star Space; lit "quarter"];
              seqs [lit "fourth"; Star Space; lit "quarter"]];
        WordBoundary].

(** [/\b(january|...|december|jan|feb|mar|apr|jun|jul|aug|sep|sept|oct|nov|dec)\b/gi] *)
Definition monthPattern : regex :=
  seqs [WordBoundary;
        alts (map lit ["january"; "february"; "march"; "april"; "may"; "june"; "july";
                       "august"; "september"; "october"; "november"; "december";
                       "jan"; "feb"; "mar"; "apr"; "jun"; "jul"; "aug"; "sep"; "sept";
                       "oct"; "nov"; "dec"]);
        WordBoundary].

Definition monthMap : list (string * string) :=
  [ ("january", "jan"); ("february", "feb"); ("march", "mar"); ("april", "apr");
    ("may", "may"); ("june", "jun"); ("july", "jul"); ("august", "aug");
    ("september", "sep"); ("sept", "sep"); ("october", "oct"); ("november", "nov");
    ("december", "dec") ].

(** [map[key]], [undefined] as [None]. *)
Fixpoint lookup (key : string) (map : list (string * string)) : option string :=
  match map with
  | [] => None
  | (k, v) :: rest => if String.eqb k key then Some v else lookup key rest
  end.

Definition nameMap : list (string * list string) :=
  [ ("trump", ["trump"; "donald trump"]);
    ("biden", ["biden"; "joe biden"]);
    ("harris", ["harris"; "kamala harris"; "kamala"]);
    ("desantis", ["desantis"; "ron desantis"]);
    ("newsom", ["newsom"; "gavin newsom"]);
    ("musk", ["musk"; "elon musk"; "elon"]);
    ("vance", ["vance"; "jd vance"]);
    ("pence", ["pence"; "mike pence"]);
    ("haley", ["haley"; "nikki haley"]);
    ("ramaswamy", ["ramaswamy"; "vivek ramaswamy"; "vivek"]);
    ("cruz", ["cruz"; "ted cruz"]);
    ("rubio", ["rubio"; "marco rubio"]);
    ("warren", ["warren"; "elizabeth warren"]);
    ("sanders", ["sanders"; "bernie sanders"; "bernie"]);
    ("buttigieg", ["buttigieg"; "pete buttigieg"; "pete"]);
    ("ocasio-cortez", ["ocasio-cortez"; "aoc"; "alexandria ocasio-cortez"]);
    ("bitcoin", ["bitcoin"; "btc"]);
    ("ethereum", ["ethereum"; "eth"]);
    ("chiefs", ["chiefs"; "kansas city chiefs"; "kc chiefs"]);
    ("eagles", ["eagles"; "philadelphia eagles"]);
    ("bills", ["bills"; "buffalo bills"]);
    ("lions", ["lions"; "detroit lions"]);
    ("cowboys", ["cowboys"; "dallas cowboys"]);
    ("packers", ["packers"; "green bay packers"]);
    ("49ers", ["49ers"; "niners"; "san francisco 49ers"]) ].

(** The loop shared by the state and the name tables: a canonical key is
    recorded when one of its variants occurs as a whole word (the first
    hit ends the inner loop).  No variant holds a character that the
    source's escaping would change. *)
Definition canonicalHits (table : list (string * list string)) (normalized : string)
    : list string :=
  fold_left
    (fun set entry =>
       let '(canonical, variants) := entry in
       if existsb (fun variant => test true (word variant) normalized) variants
       then setAdd canonical set else set)
    table [].

(** [extractEntities(title)]. *)
Definition extractEntities (title : string) : Entities :=
  let normalized := toLowerCase title in
  let yearMatches := matchAll false yearPattern normalized in
  let years := newSet yearMatches in
  let numMatches := matchAll false numberPattern normalized in
  let numbers :=
    fold_left
      (fun numbers num =>
         if (1 <? String.length num)%nat then
           if endsWith num "k"
           then setAdd (timesThousand (substring 0 (String.length num - 1) num)) numbers
           else setAdd num numbers
         else numbers)
      numMatches [] in
  let party :=
    if test true republicanPattern normalized then Some "republican"
    else if test true democratPattern normalized then Some "democrat"
    else None in
  let states := canonicalHits stateMap normalized in
  let quarterMatches := matchAll true quarterPattern normalized in
  let timeFrames :=
    fold_left
      (fun timeFrames q =>
         let qNorm := replaceAll false (Plus Space) "" (toLowerCase q) in
         setAdd qNorm timeFrames)
      quarterMatches [] in
  let monthMatches := matchAll true monthPattern normalized in
  let timeFrames :=
    fold_left
      (fun timeFrames m =>
         let mLower := toLowerCase m in
         setAdd (match lookup mLower monthMap with Some v => v | None => mLower end)
                timeFrames)
      monthMatches timeFrames in
  let names := canonicalHits nameMap normalized in
  {| names := names; numbers := numbers; years := years; party := party;
     states := states; timeFrames := timeFrames |}.

(** [normalizeTitle(title)]. *)
Definition normalizeTitle (title : string) : string :=
  let s := toLowerCase title in
  let s := replaceAll true (Alt (lit "january") (lit "jan")) "jan" s in
  let s := replaceAll true (Alt (lit "february") (lit "feb")) "feb" s in
  let s := replaceAll true (Alt (lit "march") (lit "mar")) "mar" s in
  let s := replaceAll true (Alt (lit "april") (lit "apr")) "apr" s in
  let s := replaceAll true (lit "may") "may" s in
  let s := replaceAll true (Alt (lit "june") (lit "jun")) "jun" s in
  let s := replaceAll true (Alt (lit "july") (lit "jul")) "jul" s in
  let s := replaceAll true (Alt (lit "august") (lit "aug")) "aug" s in
  let s := replaceAll true (alts [lit "september"; lit "sept"; lit "sep"]) "sep" s in
  let s := replaceAll true (Alt (lit "october") (lit "oct")) "oct" s in
  let s := replaceAll true (Alt (lit "november") (lit "nov")) "nov" s in
  let s := replaceAll true (Alt (lit "december") (lit "dec")) "dec" s in
  let s := replaceAll true (alts [lit "republican"; lit "gop"; lit "rnc"]) "republican" s in
  let s := replaceAll true (alts [lit "democratic"; lit "dem"; lit "dnc"]) "democratic" s in
  let s := replaceAll true (Seq (lit "midterm election") (Opt (lit "s"))) "midterms" s in
  let s := replaceAll true (alts [lit "united states"; lit "u.s."; lit "usa"]) "us" s in
  let s := replaceAll false (lit "?") "" s in
  let s := replaceAll false Symbol " " s in
  let s := replaceAll false (Plus Space) " " s in
  trim s.

Definition stopWords : list string :=
  ["will"; "the"; "a"; "an"; "be"; "is"; "are"; "was"; "were"; "in"; "on"; "at"; "to";
   "for"; "of"; "by"; "with"; "or"; "and"; "more"; "than"; "less"; "yes"; "no"; "win";
   "who"; "what"; "when"; "where"; "how"].

(** [extractTokens(title)]. *)
Definition extractTokens (title : string) : list string :=
  let normalized := normalizeTitle title in
  let words :=
    filter (fun w => (2 <? String.length w)%nat && negb (mem w stopWords))
           (splitWhitespace "" false normalized) in
  newSet words.

(** [jaccardSimilarity(setA, setB)]. *)
Definition jaccardSimilarity (setA setB : list string) : Q :=
  let intersection := newSet (filter (fun x => mem x setB) setA) in
  let union := newSet (setA ++ setB)%list in
  if (0 <? List.length union)%nat
  then inject_Z (Z.of_nat (List.length intersection)) / inject_Z (Z.of_nat (List.length union))
  else 0.

(** [extractEvents(title)]. *)
Definition extractEvents (title : string) : list string :=
  map snd
      (filter (fun entry => forallb (fun p => test true p title) (fst entry))
              SPECIFIC_EVENT_PATTERNS).

(** [array.some(x => other.includes(x))]. *)
Definition overlaps (array other : list string) : bool :=
  existsb (fun x => mem x other) array.

Definition nonEmpty (array : list string) : bool := (0 <? List.length array)%nat.

(** [Math.round(x)]: the nearest integer, halves upwards. *)
Definition round (x : Q) : Z := Qfloor (x + (1 # 2)).

(** [calculateSimilarity(a, b)]: the score and the reason.  The product
    [jaccard * 100] is rounded from its exact value; the double product
    can fall on the other side of a half, and the score then differs by
    one. *)
Definition calculateSimilarity (a b : StandardizedMarket) : Z * string :=
  let eventsA := extractEvents (title a) in
  let eventsB := extractEvents (title b) in
  match find (fun ea => mem ea eventsB) eventsA with
  | Some ea => (95%Z, ea)
  | None =>
      let entitiesA := extractEntities (title a) in
      let entitiesB := extractEntities (title b) in
      let partyConflict :=
        match party entitiesA, party entitiesB with
        | Some pa, Some pb => negb (String.eqb pa pb)
        | _, _ => false
        end in
      if partyConflict then (0%Z, "")
      else
        let statesA := states entitiesA in
        let statesB := states entitiesB in
        if nonEmpty statesA && nonEmpty statesB && negb (overlaps statesA statesB)
        then (0%Z, "")
        else
          let timeFramesA := timeFrames entitiesA in
          let timeFramesB := timeFrames entitiesB in
          if nonEmpty timeFramesA && nonEmpty timeFramesB
             && negb (overlaps timeFramesA timeFramesB)
          then (0%Z, "")
          else
            let tokensA := extractTokens (title a) in
            let tokensB := extractTokens (title b) in
            let jaccard := jaccardSimilarity tokensA tokensB in
            if Qle_bool 0.25 jaccard then
              let yearsA := years entitiesA in
              let yearsB := years entitiesB in
              if nonEmpty yearsA && nonEmpty yearsB && negb (overlaps yearsA yearsB)
              then (0%Z, "")
              else
                let numbersA := numbers entitiesA in
                let numbersB := numbers entitiesB in
                if nonEmpty numbersA && nonEmpty numbersB
                   && negb (overlaps numbersA numbersB)
                then (0%Z, "")
                else
                  let namesA := names entitiesA in
                  let namesB := names entitiesB in
                  let nameOverlap := filter (fun n => mem n namesB) namesA in
                  let score := round (jaccard * 100) in
                  let score :=
                    if nonEmpty nameOverlap
                    then Z.min 100 (score + Z.of_nat (List.length nameOverlap) * 15)
                    else score in
                  let score :=
                    if nonEmpty timeFramesA && nonEmpty timeFramesB
                       && nonEmpty (filter (fun t => mem t timeFramesB) timeFramesA)
                    then Z.min 100 (score + 10)
                    else score in
                  if (List.length nameOverlap =? 0)%nat && (score <? 60)%Z
                  then (0%Z, "")
                  else
                    let commonTokens := firstn 4 (filter (fun t => mem t tokensB) tokensA) in
                    let reason :=
                      if nonEmpty nameOverlap
                      then "match: " ++ join ", " nameOverlap
                      else "similar: " ++ join ", " commonTokens in
                    (score, reason)
            else (0%Z, "")
  end.

(** ** The opportunity scan *)

Definition minSimilarity : Z := 60.

Definition MAX_BUCKET_SIZE : nat := 500.

Definition topics : list string :=
  ["senate"; "house"; "president"; "governor"; "bitcoin"; "btc"; "ethereum"; "recession";
   "fed"; "super bowl"; "nba"; "nfl"; "world cup"; "olympics"].

(** The tracked years of the compound keys (the source's local [years]). *)
Definition trackedYears : list string := ["2025"; "2026"; "2027"; "2028"].

Definition entityPatterns : list (string * regex) :=
  [ ("trump", word "trump");
    ("biden", word "biden");
    ("harris", word "harris");
    ("desantis", word "desantis");
    ("newsom", word "newsom");
    ("musk", word "musk");
    ("vance", word "vance");
    ("buttigieg", word "buttigieg");
    ("ocasio-cortez", seqs [WordBoundary; lit "ocasio"; Opt Dot; lit "cortez"; WordBoundary]) ].

(** [keywordIndex]: a [Map] from key to bucket, in insertion order. *)
Definition KeywordIndex : Type := list (string * list StandardizedMarket).

(** [if (!keywordIndex.has(key)) keywordIndex.set(key, []); keywordIndex.get(key).push(m)] *)
Fixpoint pushTo (key : string) (m : StandardizedMarket) (keywordIndex : KeywordIndex)
    : KeywordIndex :=
  match keywordIndex with
  | [] => [(key, [m])]
  | (k, bucket) :: rest =>
      if String.eqb k key then (k, (bucket ++ [m])%list) :: rest
      else (k, bucket) :: pushTo key m rest
  end.

(** The keys one listing is filed under, in the order the source visits
    them: the topic-year compounds, then the named entities. *)
Definition keysOf (m : StandardizedMarket) : list string :=
  let title := toLowerCase (title m) in
  let compoundKeys :=
    flat_map
      (fun topic =>
         if includes title topic
         then flat_map (fun year => if includes title year then [topic ++ "-" ++ year] else [])
                       trackedYears
         else [])
      topics in
  let entityKeys :=
    flat_map (fun entity => if test true (snd entity) title then [fst entity] else [])
             entityPatterns in
  app compoundKeys entityKeys.

(** The first loop over [markets]: the filled index. *)
Definition buildKeywordIndex (markets : list StandardizedMarket) : KeywordIndex :=
  fold_left
    (fun keywordIndex m => fold_left (fun index key => pushTo key m index) (keysOf m) keywordIndex)
    markets [].

(** [[a.id, b.id].sort().join('-')] *)
Definition pairKey (a b : StandardizedMarket) : string :=
  if String.ltb (id b) (id a) then id b ++ "-" ++ id a else id a ++ "-" ++ id b.

(** [(profit / cost) * 100] *)
Definition roiPercent (profit cost : Q) : jsnum := jsscale (jsdiv profit cost) 100.

(** What the scan carries from pair to pair: the seen-pairs set, the
    opportunities pushed so far and, as a record of the run that the
    source does not keep, the pairs handed to [calculateSimilarity]. *)
Record Scan : Type := mkScan {
  compared : list string;
  opportunities : list ArbitrageOpportunity;
  scored : list (StandardizedMarket * StandardizedMarket)
}.

(** The two scenarios of a matched pair, in push order. *)
Definition scenarios (minRoi : Q) (a b : StandardizedMarket) (score : Z) (reason : string)
    : list ArbitrageOpportunity :=
  let costYesANoB := yesPrice a + noPrice b in
  let first :=
    if Qlt_bool costYesANoB 1 then
      let profit := 1 - costYesANoB in
      let roi := roiPercent profit costYesANoB in
      if jsge roi (Fin minRoi)
      then [ {| marketA := a; marketB := b; combinedYesCost := costYesANoB;
                potentialProfit := profit; roi := roi;
                matchScore := score; matchReason := reason |} ]
      else []
    else [] in
  let costNoAYesB := noPrice a + yesPrice b in
  let second :=
    if Qlt_bool costNoAYesB 1 then
      let profit := 1 - costNoAYesB in
      let roi := roiPercent profit costNoAYesB in
      if jsge roi (Fin minRoi)
      then [ {| marketA := b; marketB := a; combinedYesCost := costNoAYesB;
                potentialProfit := profit; roi := roi;
                matchScore := score; matchReason := reason |} ]
      else []
    else [] in
  (first ++ second)%list.

(** The body of the inner loop for the pair [(a, b)]. *)
Definition comparePair (minRoi : Q) (a b : StandardizedMarket) (scan : Scan) : Scan :=
  if platform_eqb (platform a) (platform b) then scan
  else
    let key := pairKey a b in
    if mem key (compared scan) then scan
    else
      let '(score, reason) := calculateSimilarity a b in
      let found := if (score <? minSimilarity)%Z then [] else scenarios minRoi a b score reason in
      {| compared := setAdd key (compared scan);
         opportunities := (opportunities scan ++ found)%list;
         scored := (scored scan ++ [(a, b)])%list |}.

(** [for (i ...) for (j = i + 1 ...)] over [sortedMarkets]. *)
Fixpoint comparePairs (minRoi : Q) (sortedMarkets : list StandardizedMarket) (scan : Scan)
    : Scan :=
  match sortedMarkets with
  | [] => scan
  | a :: rest =>
      comparePairs minRoi rest (fold_left (fun scan b => comparePair minRoi a b scan) rest scan)
  end.

(** [new Set(matchingMarkets.map(m => m.platform)).size < 2] *)
Definition singlePlatform (matchingMarkets : list StandardizedMarket) : bool :=
  match matchingMarkets with
  | [] => true
  | m :: rest => forallb (fun m' => platform_eqb (platform m') (platform m)) rest
  end.

(** The bucket as the loops see it: by volume, highest first, cut at
    [MAX_BUCKET_SIZE]. *)
Definition sortedBucket (matchingMarkets : list StandardizedMarket)
    : list StandardizedMarket :=
  firstn MAX_BUCKET_SIZE
         (sortBy (fun a b => Qlt_bool 0 (volume b - volume a)) matchingMarkets).

(** The body of the loop over the index entries. *)
Definition scanBucket (minRoi : Q) (scan : Scan) (entry : string * list StandardizedMarket)
    : Scan :=
  let matchingMarkets := snd entry in
  if singlePlatform matchingMarkets then scan
  else comparePairs minRoi (sortedBucket matchingMarkets) scan.

(** The scan over every bucket of the index of [markets]. *)
Definition scanMarkets (markets : list StandardizedMarket) (minRoi : Q) : Scan :=
  fold_left (scanBucket minRoi) (buildKeywordIndex markets)
            {| compared := []; opportunities := []; scored := [] |}.

(** [x - y] on numbers that may be infinite. *)
Definition jssub (x y : jsnum) : jsnum :=
  match x, y with
  | NaN, _ | _, NaN => NaN
  | Fin a, Fin b => Fin (a - b)
  | PosInf, PosInf | NegInf, NegInf => NaN
  | PosInf, _ | _, NegInf => PosInf
  | NegInf, _ | _, PosInf => NegInf
  end.

(** [Math.abs(x)] *)
Definition jsabs (x : jsnum) : jsnum :=
  match x with
  | Fin a => Fin (Qabs a)
  | NegInf => PosInf
  | other => other
  end.

(** [x > y] *)
Definition jsgt (x y : jsnum) : bool :=
  match x, y with
  | NaN, _ | _, NaN => false
  | _, _ => negb (jsge y x)
  end.

(** The comparator of the final sort:
    [if (Math.abs(a.roi - b.roi) > 0.1) return b.roi - a.roi; return b.matchScore - a.matchScore]. *)
Definition compareOpportunities (a b : ArbitrageOpportunity) : jsnum :=
  if jsgt (jsabs (jssub (roi a) (roi b))) (Fin 0.1) then jssub (roi b) (roi a)
  else Fin (inject_Z (matchScore b - matchScore a)).

(** [findArbitrageOpportunities(markets, minRoi)].  The [byPlatform]
    table the source fills first is never read and is left out.  The
    comparator of the final sort is not transitive, so the order of the
    result is that of [sortBy] and may differ from an engine's; what is
    proved of the result is stated by membership. *)
Definition findArbitrageOpportunities (markets : list StandardizedMarket) (minRoi : Q)
    : list ArbitrageOpportunity :=
  sortBy (fun a b => jsgt (compareOpportunities a b) (Fin 0))
         (opportunities (scanMarkets markets minRoi)).

End MarketApi.

(** Two titles are identical except for the year token: the same text
    around one year each, the two years different, and no other year in
    either title. *)
Definition differOnlyInYear (titleA titleB : string) : Prop :=
  exists before after yearA yearB : string,
    titleA = (before ++ yearA ++ after)%string /\
    titleB = (before ++ yearB ++ after)%string /\
    yearA <> yearB /\
    MarketApi.years (MarketApi.extractEntities titleA) = [yearA] /\
    MarketApi.years (MarketApi.extractEntities titleB) = [yearB].

(** The party families as the spec words them: the republican terms
    [republican], [gop], [rnc] and a bare [r], the democrat terms
    [democrat], [dnc], [dem] and a bare [d]; the abbreviations as words
    of their own.  They are compared with the patterns of
    [MarketApi.extractEntities]. *)
Definition republicanFamily : regex :=
  alts [lit "republican"; lit "gop"; lit "rnc"; word "r"].

Definition democratFamily : regex :=
  alts [lit "democrat"; lit "dnc"; word "dem"; word "d"].

(* ================================================================= *)
(** * Sample listings *)

Module Samples.

Import MarketApi.

(** The end-to-end pair of the spec. *)
Definition fedKalshi : StandardizedMarket :=
  mkMarket "KXFED-25" Kalshi "Fed Rate Cut in 2025" 0.40 0.60 10.
Definition fedPolymarket : StandardizedMarket :=
  mkMarket "512345" Polymarket "Will the Fed cut rates in 2025?" 0.50 0.50 20.

(** The opportunity the scan reports for that pair. *)
Definition fedOpportunity : ArbitrageOpportunity :=
  {| marketA := fedKalshi; marketB := fedPolymarket;
     combinedYesCost := noPrice fedPolymarket + yesPrice fedKalshi;
     potentialProfit := 1 - (noPrice fedPolymarket + yesPrice fedKalshi);
     roi := roiPercent (1 - (noPrice fedPolymarket + yesPrice fedKalshi))
                       (noPrice fedPolymarket + yesPrice fedKalshi);
     matchScore := 95; matchReason := "fed-rate-cut" |}.

(** Two listings that differ in the year only, without an event label. *)
Definition biden2025 : StandardizedMarket :=
  mkMarket "KXBIDEN-25" Kalshi "Will Biden resign in 2025?" 0.40 0.60 10.
Definition biden2026 : StandardizedMarket :=
  mkMarket "512346" Polymarket "Will Biden resign in 2026?" 0.50 0.50 20.

(** Two listings that differ in the year only, under an event label. *)
Definition tariffs2025 : StandardizedMarket :=
  mkMarket "KXTARIFF-25" Kalshi "Will Trump impose tariffs on China in 2025?" 0.40 0.60 20.
Definition tariffs2026 : StandardizedMarket :=
  mkMarket "512347" Polymarket "Will Trump impose tariffs on China in 2026?" 0.50 0.50 10.

(** Four listings with distinct ids of the shapes the venues use: a
    Polymarket id is a number, a PredictIt id is [market-contract]. *)
Definition poly1234 : StandardizedMarket :=
  mkMarket "1234" Polymarket "Will Trump win the 2028 election?" 0.40 0.60 0.
Definition predictit5678_9012 : StandardizedMarket :=
  mkMarket "5678-9012" PredictIt "Trump to win the 2028 election" 0.50 0.50 0.
Definition predictit1234_5678 : StandardizedMarket :=
  mkMarket "1234-5678" PredictIt "Will Trump be impeached?" 0.30 0.70 0.
Definition poly9012 : StandardizedMarket :=
  mkMarket "9012" Polymarket "Trump impeached?" 0.40 0.60 0.

Definition collidingMarkets : list StandardizedMarket :=
  [poly1234; predictit5678_9012; predictit1234_5678; poly9012].

(** Three listings about one person, with ids that hold no dash. *)
Definition vanceKalshi : StandardizedMarket :=
  mkMarket "KXVANCE28" Kalshi "Will Vance win the 2028 election?" 0.30 0.70 5.
Definition vancePolymarket : StandardizedMarket :=
  mkMarket "600001" Polymarket "Vance wins the 2028 election" 0.35 0.65 9.
Definition vancePolymarketVp : StandardizedMarket :=
  mkMarket "600002" Polymarket "Will Vance resign as VP in 2028?" 0.05 0.95 7.

Definition vanceMarkets : list StandardizedMarket :=
  [vanceKalshi; vancePolymarket; vancePolymarketVp].

End Samples.

(* ================================================================= *)
(** * Invariants of the scan *)

Section ScanInvariants.

Import MarketApi.

Variable minRoi : Q.

(** [o] is one of the two scenarios of the cross-venue pair [(a, b)],
    which the scorer rated at least [minSimilarity]. *)
Definition emitted (a b : StandardizedMarket) (o : ArbitrageOpportunity) : Prop :=
  platform a <> platform b /\
  (minSimilarity <= fst (calculateSimilarity a b))%Z /\
  In o (scenarios minRoi a b (fst (calculateSimilarity a b)) (snd (calculateSimilarity a b))).

(** Everything pushed so far comes from such a pair. *)
Definition justified (scan : Scan) : Prop :=
  forall o, In o (opportunities scan) -> exists a b, emitted a b o.

(** The seen-pairs key of a scored pair. *)
Definition keyOf (pair : StandardizedMarket * StandardizedMarket) : string :=
  pairKey (fst pair) (snd pair).

(** The seen-pairs set holds the keys of the scored pairs, once each. *)
Definition seen_once (scan : Scan) : Prop :=
  compared scan = map keyOf (scored scan) /\ NoDup (compared scan).

(** [keepAtLeast r o]: the opportunity [o] passes the threshold [r]. *)
Definition keepAtLeast (r : Q) (o : ArbitrageOpportunity) : bool := jsge (roi o) (Fin r).

(** The run at the threshold [r] sees the same pairs as the run [low]
    and keeps the opportunities of [low] that reach [r]. *)
Definition filtered (r : Q) (low high : Scan) : Prop :=
  compared high = compared low /\
  scored high = scored low /\
  opportunities high = filter (keepAtLeast r) (opportunities low).

(** Highest volume first. *)
Definition byVolume (a b : StandardizedMarket) : Prop := volume b <= volume a.

(** The pairs [(a, b)] of a list with [a] before [b]: the pairs the two
    nested loops visit. *)
Fixpoint allPairs (l : list StandardizedMarket)
    : list (StandardizedMarket * StandardizedMarket) :=
  match l with
  | [] => []
  | a :: rest => (map (fun b => (a, b)) rest ++ allPairs rest)%list
  end.

(** The id holds no ['-']. *)
Fixpoint dashFree (s : string) : bool :=
  match s with
  | EmptyString => true
  | String c rest => negb (Ascii.eqb c "-") && dashFree rest
  end.

End ScanInvariants.

(** Case analysis on the venue tests of [calculatePlatformFee]. *)
Ltac venue_cases :=
  repeat match goal with
         | |- context [if (?name =? ?venue)%string then _ else _] =>
             destruct (name =? venue)%string
         | |- context [if orb ?x ?y then _ else _] => destruct (orb x y)
         | |- context [match ?mode with Maker => _ | Taker => _ end] => destruct mode
         end.

(* ================================================================= *)
(** * Properties of the fee model and of the ROI calculator *)

Section FeeFacts.

Variables (platform : string) (price : Q) (mode : OrderMode).

(** Every branch of the sentinel fee is a rate times the contract count. *)
Lemma sentinel_fee_linear (n : Q) :
  Sentinel.calculatePlatformFee platform price n mode
  == Sentinel.calculatePlatformFee platform price 1 mode * n.
Proof.
  unfold Sentinel.calculatePlatformFee. cbv zeta. venue_cases; ring.
Qed.

(** For a price in [[0,1]] the per-contract rate is not negative. *)
Lemma sentinel_rate_nonneg :
  0 <= price <= 1 ->
  0 <= Sentinel.calculatePlatformFee platform price 1 mode.
Proof.
  intros [Hlo Hhi].
  assert (H1 : 0 <= 1 - price) by lra.
  assert (H2 : 0 <= price * (1 - price)) by (apply Qmult_le_0_compat; assumption).
  unfold Sentinel.calculatePlatformFee. cbv zeta. venue_cases; lra.
Qed.

(** The two fee models agree on every venue name but "polymarket" and
    the names that only one of the two IBKR tests accepts. *)
Lemma fee_models_agree_elsewhere (n : Q) :
  toLowerCase platform <> "polymarket"%string ->
  (includes (toLowerCase platform) "ibkr" || includes (toLowerCase platform) "forecastex")%bool
    = ((toLowerCase platform =? "ibkr") || (toLowerCase platform =? "ibkr forecast"))%string ->
  Sentinel.calculatePlatformFee platform price n mode
  == Calculator.calculatePlatformFee platform price n mode.
Proof.
  intros Hpoly Hibkr. apply String.eqb_neq in Hpoly.
  unfold Sentinel.calculatePlatformFee, Calculator.calculatePlatformFee. cbv zeta.
  rewrite Hpoly, Hibkr. venue_cases; ring.
Qed.

End FeeFacts.

Section LoopFacts.

Variables (cost : Z -> Q) (investment : Q).

(** The loop never climbs above its start. *)
Lemma decrementLoop_le (start : nat) :
  (Sentinel.decrementLoop cost investment start <= start)%nat.
Proof.
  induction start as [|k IH]; cbn [Sentinel.decrementLoop]; [lia|].
  destruct (Qle_bool (cost (Z.of_nat (S k))) investment); lia.
Qed.

(** An affordable start is where it stays. *)
Lemma decrementLoop_stay (start : nat) :
  cost (Z.of_nat start) <= investment ->
  Sentinel.decrementLoop cost investment start = start.
Proof.
  intros H. destruct start as [|k]; [reflexivity|].
  cbn [Sentinel.decrementLoop].
  apply Qle_bool_iff in H. rewrite H. reflexivity.
Qed.

(** It stops at 0 or at an affordable count. *)
Lemma decrementLoop_feasible (start : nat) :
  Sentinel.decrementLoop cost investment start = O \/
  cost (Z.of_nat (Sentinel.decrementLoop cost investment start)) <= investment.
Proof.
  induction start as [|k IH]; cbn [Sentinel.decrementLoop]; [now left|].
  destruct (Qle_bool (cost (Z.of_nat (S k))) investment) eqn:E.
  - right. now apply Qle_bool_iff.
  - exact IH.
Qed.

(** Every count it stepped over was unaffordable. *)
Lemma decrementLoop_skipped (start m : nat) :
  (Sentinel.decrementLoop cost investment start < m <= start)%nat ->
  ~ cost (Z.of_nat m) <= investment.
Proof.
  induction start as [|k IH]; cbn [Sentinel.decrementLoop]; [lia|].
  destruct (Qle_bool (cost (Z.of_nat (S k))) investment) eqn:E; intros Hm; [lia|].
  destruct (Nat.eq_dec m (S k)) as [->|Hne].
  - intros Hc. apply Qle_bool_iff in Hc. congruence.
  - apply IH. lia.
Qed.

End LoopFacts.

Section ScenarioFacts.

Variables (platformA platformB : string) (priceA priceB : Q) (mode : OrderMode).

Let cost := Sentinel.totalCost platformA priceA platformB priceB mode.

(** The fee-inclusive cost is linear in the count. *)
Lemma totalCost_linear (n : Z) :
  cost n == cost 1%Z * inject_Z n.
Proof.
  unfold cost, Sentinel.totalCost.
  rewrite (sentinel_fee_linear platformA priceA mode (inject_Z n)).
  rewrite (sentinel_fee_linear platformB priceB mode (inject_Z n)).
  change (inject_Z 1) with 1. ring.
Qed.

(** With prices in [[0,1]] the fees only add to the base cost. *)
Lemma totalCost_above_base (n : Z) :
  0 <= priceA <= 1 -> 0 <= priceB <= 1 -> (0 <= n)%Z ->
  (priceA + priceB) * inject_Z n <= cost n.
Proof.
  intros HA HB Hn0.
  assert (Hn : 0 <= inject_Z n).
  { change 0 with (inject_Z 0). rewrite <- Zle_Qle. exact Hn0. }
  unfold cost, Sentinel.totalCost.
  rewrite (sentinel_fee_linear platformA priceA mode (inject_Z n)).
  rewrite (sentinel_fee_linear platformB priceB mode (inject_Z n)).
  pose proof (sentinel_rate_nonneg platformA priceA mode HA) as RA.
  pose proof (sentinel_rate_nonneg platformB priceB mode HB) as RB.
  assert (0 <= Sentinel.calculatePlatformFee platformA priceA 1 mode * inject_Z n)
    by (apply Qmult_le_0_compat; assumption).
  assert (0 <= Sentinel.calculatePlatformFee platformB priceB 1 mode * inject_Z n)
    by (apply Qmult_le_0_compat; assumption).
  lra.
Qed.

End ScenarioFacts.

(** For a cost in (0,1) and a positive budget the quotient is finite and
    the naive bound [floor(investment / baseCost)] is not negative. *)
Lemma naive_bound_finite (baseCost investment : Q) :
  0 < baseCost -> 0 < investment ->
  jsdiv investment baseCost = Fin (investment / baseCost) /\
  (0 <= Qfloor (investment / baseCost))%Z.
Proof.
  intros Hb Hi. split.
  - unfold jsdiv. destruct (Qeq_bool baseCost 0) eqn:E; [|reflexivity].
    apply Qeq_bool_iff in E. lra.
  - change 0%Z with (Qfloor (inject_Z 0)). apply Qfloor_resp_le.
    change (inject_Z 0) with 0. apply Qle_shift_div_l; lra.
Qed.

(** Above the naive bound the base cost alone exceeds the budget. *)
Lemma above_naive_bound (baseCost investment : Q) (m : nat) :
  0 < baseCost ->
  (Qfloor (investment / baseCost) < Z.of_nat m)%Z ->
  investment < baseCost * inject_Z (Z.of_nat m).
Proof.
  intros Hb Hm.
  assert (H1 : investment / baseCost < inject_Z (Z.of_nat m)).
  { eapply Qlt_le_trans; [apply Qlt_floor|]. rewrite <- Zle_Qle. lia. }
  apply (Qmult_lt_compat_r _ _ baseCost Hb) in H1.
  assert (E : investment / baseCost * baseCost == investment) by (field; lra).
  lra.
Qed.

(** ** Congruences for the rational model *)

Lemma jsdiv_comp (a a' b b' : Q) :
  a == a' -> b == b' -> jsnum_eq (jsdiv a b) (jsdiv a' b').
Proof.
  intros Ha Hb. unfold jsdiv.
  rewrite (Qeqb_comp b b' Hb 0 0 (Qeq_refl 0)).
  destruct (Qeq_bool b' 0).
  - rewrite (Qcompare_comp a a' Ha 0 0 (Qeq_refl 0)).
    destruct (a' ?= 0); exact I.
  - simpl. rewrite Ha, Hb. reflexivity.
Qed.

Lemma jsscale_comp (x y : jsnum) (k : Q) :
  jsnum_eq x y -> jsnum_eq (jsscale x k) (jsscale y k).
Proof.
  destruct x, y; simpl; try tauto. intros ->. reflexivity.
Qed.

(** The loop only looks at the cost through [<=]. *)
Lemma decrementLoop_ext (cost cost' : Z -> Q) (investment : Q) (start : nat) :
  (forall k, cost k == cost' k) ->
  Sentinel.decrementLoop cost investment start
  = Sentinel.decrementLoop cost' investment start.
Proof.
  intros H. induction start as [|k IH]; cbn [Sentinel.decrementLoop]; [reflexivity|].
  rewrite (Qleb_comp _ _ (H (Z.of_nat (S k))) investment investment (Qeq_refl _)).
  rewrite IH. reflexivity.
Qed.

(* ================================================================= *)
(** * Properties of the matcher and of the opportunity scan *)

Section SortFacts.

Context {A : Type} (after : A -> A -> bool).

Lemma insertBy_perm (x : A) (sorted : list A) :
  Permutation (insertBy after x sorted) (x :: sorted).
Proof.
  induction sorted as [|y rest IH]; simpl; [reflexivity|].
  destruct (after y x); [reflexivity|].
  rewrite IH. apply perm_swap.
Qed.

Lemma sortBy_from_perm (array sorted : list A) :
  Permutation (fold_left (fun sorted x => insertBy after x sorted) array sorted)
              (sorted ++ array).
Proof.
  revert sorted. induction array as [|x rest IH]; intros sorted; simpl.
  - rewrite app_nil_r. reflexivity.
  - rewrite IH, insertBy_perm. apply Permutation_middle.
Qed.

(** Sorting keeps the elements. *)
Lemma sortBy_perm (array : list A) : Permutation (sortBy after array) array.
Proof. apply (sortBy_from_perm array []). Qed.

Lemma sortBy_In (array : list A) (x : A) : In x (sortBy after array) <-> In x array.
Proof.
  split; apply Permutation_in; [|symmetry]; apply sortBy_perm.
Qed.

End SortFacts.

(** A property kept by every step of a loop holds when the loop ends. *)
Lemma fold_left_invariant {S X : Type} (P : S -> Prop) (step : S -> X -> S) (xs : list X) :
  (forall s x, P s -> P (step s x)) ->
  forall s, P s -> P (fold_left step xs s).
Proof.
  intros Hstep. induction xs as [|x rest IH]; intros s Hs; simpl; [exact Hs|].
  apply IH, Hstep, Hs.
Qed.

Lemma platform_eqb_eq (p q : MarketApi.Platform) :
  MarketApi.platform_eqb p q = true <-> p = q.
Proof. destruct p, q; simpl; split; congruence. Qed.

Lemma mem_In (x : string) (l : list string) : mem x l = true <-> In x l.
Proof.
  unfold mem. rewrite existsb_exists. split.
  - intros (y & Hy & E). apply String.eqb_eq in E. now subst.
  - intros H. exists x. split; [exact H|apply String.eqb_refl].
Qed.

(** [some]/[includes] overlap does not depend on the side it starts from. *)
Lemma overlaps_sym (l1 l2 : list string) :
  MarketApi.overlaps l1 l2 = MarketApi.overlaps l2 l1.
Proof.
  apply eq_true_iff_eq. unfold MarketApi.overlaps.
  rewrite !existsb_exists. split; intros (x & Hx & Hm); apply mem_In in Hm;
    exists x; (split; [exact Hm | now apply mem_In]).
Qed.

Lemma find_none_overlaps (l1 l2 : list string) :
  find (fun x => mem x l2) l1 = None <-> MarketApi.overlaps l1 l2 = false.
Proof.
  unfold MarketApi.overlaps. induction l1 as [|x rest IH]; simpl; [tauto|].
  destruct (mem x l2); simpl; [split; discriminate | exact IH].
Qed.

Section ScanFacts.

Import MarketApi.

Variable minRoi : Q.

Lemma comparePair_justified (a b : StandardizedMarket) (scan : Scan) :
  justified minRoi scan -> justified minRoi (comparePair minRoi a b scan).
Proof.
  intros H. unfold comparePair.
  destruct (platform_eqb (platform a) (platform b)) eqn:Ep; [exact H|].
  destruct (mem (pairKey a b) (compared scan)); [exact H|].
  destruct (calculateSimilarity a b) as [score reason] eqn:Es.
  intros o Ho. cbn [opportunities] in Ho. apply in_app_or in Ho as [Ho|Ho]; [now apply H|].
  destruct (score <? minSimilarity)%Z eqn:El; [destruct Ho|].
  exists a, b. unfold emitted. rewrite Es. cbn [fst snd].
  repeat split.
  - intros E. apply platform_eqb_eq in E. congruence.
  - now apply Z.ltb_ge.
  - exact Ho.
Qed.

Lemma comparePairs_justified (sortedMarkets : list StandardizedMarket) (scan : Scan) :
  justified minRoi scan -> justified minRoi (comparePairs minRoi sortedMarkets scan).
Proof.
  revert scan. induction sortedMarkets as [|a rest IH]; intros scan H; simpl; [exact H|].
  apply IH. apply fold_left_invariant; [|exact H].
  intros s b. apply comparePair_justified.
Qed.

Lemma scanMarkets_justified (markets : list StandardizedMarket) :
  justified minRoi (scanMarkets markets minRoi).
Proof.
  unfold scanMarkets. apply fold_left_invariant.
  - intros scan entry H. unfold scanBucket.
    destruct (singlePlatform (snd entry)); [exact H|].
    now apply comparePairs_justified.
  - intros o [].
Qed.

(** Every opportunity returned comes from a cross-venue pair rated at
    least [minSimilarity]. *)
Lemma findArbitrageOpportunities_emitted
    (markets : list StandardizedMarket) (o : ArbitrageOpportunity) :
  In o (findArbitrageOpportunities markets minRoi) -> exists a b, emitted minRoi a b o.
Proof.
  unfold findArbitrageOpportunities. rewrite sortBy_In.
  apply scanMarkets_justified.
Qed.

(** The two shapes an emitted opportunity can have. *)
Lemma scenarios_In (a b : StandardizedMarket) (score : Z) (reason : string)
    (o : ArbitrageOpportunity) :
  In o (scenarios minRoi a b score reason) ->
  (marketA o = a /\ marketB o = b /\ combinedYesCost o = yesPrice a + noPrice b \/
   marketA o = b /\ marketB o = a /\ combinedYesCost o = noPrice a + yesPrice b) /\
  combinedYesCost o < 1 /\
  potentialProfit o = 1 - combinedYesCost o /\
  roi o = roiPercent (potentialProfit o) (combinedYesCost o) /\
  jsge (roi o) (Fin minRoi) = true /\
  matchScore o = score /\ matchReason o = reason.
Proof.
  unfold scenarios. intros H. apply in_app_or in H as [H|H].
  - destruct (Qlt_bool (yesPrice a + noPrice b) 1) eqn:Ec; [|destruct H].
    destruct (jsge _ _) eqn:Er in H; [|destruct H].
    destruct H as [<-|[]]. cbn.
    repeat split; try reflexivity; try exact Er.
    + left. repeat split.
    + unfold Qlt_bool in Ec. apply negb_true_iff in Ec.
      apply Qnot_le_lt. intros Hle. apply Qle_bool_iff in Hle. congruence.
  - destruct (Qlt_bool (noPrice a + yesPrice b) 1) eqn:Ec; [|destruct H].
    destruct (jsge _ _) eqn:Er in H; [|destruct H].
    destruct H as [<-|[]]. cbn.
    repeat split; try reflexivity; try exact Er.
    + right. repeat split.
    + unfold Qlt_bool in Ec. apply negb_true_iff in Ec.
      apply Qnot_le_lt. intros Hle. apply Qle_bool_iff in Hle. congruence.
Qed.

End ScanFacts.

Section YearConflict.

Import MarketApi.

Variables a b : StandardizedMarket.

Hypothesis no_shared_event :
  overlaps (extractEvents (title a)) (extractEvents (title b)) = false.
Hypothesis years_a : nonEmpty (years (extractEntities (title a))) = true.
Hypothesis years_b : nonEmpty (years (extractEntities (title b))) = true.
Hypothesis years_disjoint :
  overlaps (years (extractEntities (title a))) (years (extractEntities (title b))) = false.

(** Without a shared event label, two titles whose year sets are both
    non-empty and disjoint score 0: every path of the scorer either
    vetoes earlier, or finds the token overlap too low, or reaches the
    year check. *)
Lemma year_conflict_score : fst (calculateSimilarity a b) = 0%Z.
Proof.
  unfold calculateSimilarity.
  rewrite (proj2 (find_none_overlaps _ _) no_shared_event). cbv zeta.
  destruct (match party (extractEntities (title a)) with
            | Some pa => _ | None => _ end); [reflexivity|].
  destruct (nonEmpty (states (extractEntities (title a))) && _ && _); [reflexivity|].
  destruct (nonEmpty (timeFrames (extractEntities (title a))) && _ && _); [reflexivity|].
  destruct (Qle_bool 0.25 _); [|reflexivity].
  rewrite years_a, years_b, years_disjoint. reflexivity.
Qed.

End YearConflict.

Section SearchFacts.

Variables (platformA platformB : string) (priceA priceB investment : Q) (mode : OrderMode).

(** Whatever the prices, with a positive base cost and a positive
    investment the search exits at an affordable count that is either
    the fee-less bound or one below an unaffordable count. *)
Lemma maxContracts_affordable :
  0 < priceA + priceB -> 0 < investment ->
  exists n : Z,
    Sentinel.maxContracts platformA priceA platformB priceB investment mode = Some n /\
    (0 <= n)%Z /\
    Sentinel.totalCost platformA priceA platformB priceB mode n <= investment /\
    (n = Qfloor (investment / (priceA + priceB)) \/
     ~ Sentinel.totalCost platformA priceA platformB priceB mode (n + 1) <= investment).
Proof.
  intros Hpos Hinv.
  destruct (naive_bound_finite _ _ Hpos Hinv) as [Hdiv Hstart].
  set (cost := Sentinel.totalCost platformA priceA platformB priceB mode).
  set (start := Qfloor (investment / (priceA + priceB))) in *.
  set (n := Sentinel.decrementLoop cost investment (Z.to_nat start)).
  pose proof (decrementLoop_le cost investment (Z.to_nat start)) as Hle. fold n in Hle.
  exists (Z.of_nat n). repeat split.
  - unfold Sentinel.maxContracts. rewrite Hdiv. fold start. fold cost.
    destruct (0 <? start)%Z eqn:E; [reflexivity|].
    apply Z.ltb_ge in E. assert (start = 0%Z) as -> by lia. reflexivity.
  - lia.
  - destruct (decrementLoop_feasible cost investment (Z.to_nat start)) as [H0|Hf]; [|exact Hf].
    unfold n. rewrite H0. unfold cost. rewrite totalCost_linear.
    change (inject_Z (Z.of_nat 0)) with 0. lra.
  - destruct (Nat.eq_dec n (Z.to_nat start)) as [E|N]; [left; lia|right].
    replace (Z.of_nat n + 1)%Z with (Z.of_nat (S n)) by lia.
    apply (decrementLoop_skipped cost investment (Z.to_nat start)). fold n. lia.
Qed.

End SearchFacts.

(** The seen-pairs key does not depend on the order of the two listings. *)
Lemma pairKey_sym (a b : MarketApi.StandardizedMarket) :
  MarketApi.pairKey a b = MarketApi.pairKey b a.
Proof.
  unfold MarketApi.pairKey, String.ltb.
  rewrite (String.compare_antisym (MarketApi.id b) (MarketApi.id a)).
  destruct (String.compare (MarketApi.id a) (MarketApi.id b)) eqn:C; simpl; try reflexivity.
  apply String.compare_eq_iff in C. rewrite C. reflexivity.
Qed.

Section SeenPairs.

Import MarketApi.

Variable minRoi : Q.

Lemma comparePair_seen_once (a b : StandardizedMarket) (scan : Scan) :
  seen_once scan -> seen_once (comparePair minRoi a b scan).
Proof.
  intros [Hkeys Hnodup]. unfold comparePair.
  destruct (platform_eqb (platform a) (platform b)); [now split|].
  destruct (mem (pairKey a b) (compared scan)) eqn:Em; [now split|].
  destruct (calculateSimilarity a b) as [score reason].
  unfold seen_once. cbn [compared scored]. unfold setAdd. rewrite Em.
  split.
  - rewrite map_app, Hkeys. reflexivity.
  - apply NoDup_app; [exact Hnodup | repeat constructor; intros [] |].
    intros k Hk [<-|[]]. apply mem_In in Hk. congruence.
Qed.

(** No pair is handed to the scorer twice: the scored pairs of a whole
    run have pairwise different keys. *)
Lemma scored_keys_distinct (markets : list StandardizedMarket) :
  NoDup (map keyOf (scored (scanMarkets markets minRoi))).
Proof.
  assert (H : seen_once (scanMarkets markets minRoi)).
  { unfold scanMarkets. apply fold_left_invariant.
    - intros scan entry Hs. unfold scanBucket.
      destruct (singlePlatform (snd entry)); [exact Hs|].
      generalize dependent scan.
      induction (sortedBucket (snd entry)) as [|a rest IH]; intros scan Hs; simpl;
        [exact Hs|].
      apply IH. apply fold_left_invariant; [|exact Hs].
      intros s b. apply comparePair_seen_once.
    - split; [reflexivity|constructor]. }
  destruct H as [<- Hnodup]. exact Hnodup.
Qed.

End SeenPairs.

(* ================================================================= *)
(** * The embedding on the spec's sample inputs *)

Section SampleRuns.

Import MarketApi.

(** The sliding-scale fee at price 0.5 for 10 contracts. *)
Example kalshi_fee_sample :
  Sentinel.calculatePlatformFee "Kalshi" 0.5 10 Taker == 0.175 /\
  Sentinel.calculatePlatformFee "Kalshi" 0.5 10 Maker == 0.
Proof. split; reflexivity. Qed.

(** A title with every kind of entity. *)
Example extractEntities_sample :
  extractEntities "Will Trump win the Republican primary in Texas by Q1 2028 or March? BTC at 100k, 4.5%"
  = {| names := ["trump"; "bitcoin"]; numbers := ["2028"; "100000"; "4.5"];
       years := ["2028"]; party := Some "republican";
       states := ["indiana"; "oregon"; "texas"]; timeFrames := ["q1"; "mar"] |}%string.
Proof. vm_compute. reflexivity. Qed.

Example extractTokens_sample :
  extractTokens "Will the Fed cut rates in 2025?" = ["fed"; "cut"; "rates"; "2025"]%string.
Proof. vm_compute. reflexivity. Qed.

(** Conflicting parties with otherwise identical tokens score 0. *)
Example party_conflict_sample :
  calculateSimilarity (mkMarket "a" Kalshi "Republican Senate seat" 0.5 0.5 0)
                      (mkMarket "b" Polymarket "Democrat Senate seat" 0.5 0.5 0)
  = (0%Z, ""%string).
Proof. vm_compute. reflexivity. Qed.

(** Identical titles score 100. *)
Example identical_titles_sample :
  calculateSimilarity Samples.biden2025 Samples.biden2025 = (100%Z, "match: biden"%string).
Proof. vm_compute. reflexivity. Qed.

(** The end-to-end pair: one scenario, at cost 0.40 + 0.50. *)
Example end_to_end_sample :
  findArbitrageOpportunities [Samples.fedKalshi; Samples.fedPolymarket] 0
  = [Samples.fedOpportunity] /\
  combinedYesCost Samples.fedOpportunity == 0.90 /\
  jsnum_eq (roi Samples.fedOpportunity) (Fin (100 / 9)).
Proof. repeat split; vm_compute; reflexivity. Qed.

End SampleRuns.

(* ================================================================= *)
(** * The ROI calculator *)

(** The search is right in exact arithmetic.  For prices in [[0,1]] with
    [0 < priceA + priceB < 1] and a positive investment, on any two venues
    and either order type, the search run on rationals exits with a count
    [n >= 0] that is the largest affordable one: [n] pairs cost at most
    the investment, fees included, and every count [m >= 0] that does is
    at most [n].  What the rounding of doubles makes of the search is
    shown after it. *)
Lemma exact_search_is_maximum :
  forall (platformA platformB : string) (priceA priceB investment : Q) (mode : OrderMode),
    0 <= priceA <= 1 -> 0 <= priceB <= 1 ->
    0 < priceA + priceB -> priceA + priceB < 1 -> 0 < investment ->
    exists n : Z,
      Sentinel.maxContracts platformA priceA platformB priceB investment mode = Some n /\
      (0 <= n)%Z /\
      Sentinel.totalCost platformA priceA platformB priceB mode n <= investment /\
      forall m : Z,
        (0 <= m)%Z ->
        Sentinel.totalCost platformA priceA platformB priceB mode m <= investment ->
        (m <= n)%Z.
Proof.
  intros platformA platformB priceA priceB investment mode HA HB Hpos _ Hinv.
  destruct (naive_bound_finite _ _ Hpos Hinv) as [Hdiv Hstart].
  set (cost := Sentinel.totalCost platformA priceA platformB priceB mode).
  set (start := Qfloor (investment / (priceA + priceB))) in *.
  set (n := Sentinel.decrementLoop cost investment (Z.to_nat start)).
  assert (Hzero : cost 0%Z <= investment).
  { unfold cost. rewrite totalCost_linear. change (inject_Z 0) with 0. lra. }
  exists (Z.of_nat n). repeat split.
  - unfold Sentinel.maxContracts. rewrite Hdiv. fold start. fold cost.
    destruct (0 <? start)%Z eqn:E; [reflexivity|].
    apply Z.ltb_ge in E. assert (start = 0%Z) as -> by lia. reflexivity.
  - lia.
  - destruct (decrementLoop_feasible cost investment (Z.to_nat start)) as [H0|Hf].
    + unfold n. rewrite H0. exact Hzero.
    + exact Hf.
  - intros m Hm0 Hm.
    destruct (Z.le_gt_cases m (Z.of_nat n)) as [Hle|Hgt]; [exact Hle|exfalso].
    destruct (Z.le_gt_cases m start) as [Hin|Hout].
    + apply (decrementLoop_skipped cost investment (Z.to_nat start) (Z.to_nat m)).
      * fold n. lia.
      * rewrite Z2Nat.id by exact Hm0. exact Hm.
    + assert (Hlt : (Qfloor (investment / (priceA + priceB)) < Z.of_nat (Z.to_nat m))%Z)
        by (fold start; lia).
      pose proof (above_naive_bound _ investment (Z.to_nat m) Hpos Hlt) as Habove.
      rewrite Z2Nat.id in Habove by exact Hm0.
      pose proof (totalCost_above_base platformA platformB priceA priceB mode m HA HB Hm0) as Hbase.
      fold cost in Hbase. lra.
Qed.

(** The search at Kalshi/PredictIt taker prices 0.40 and 0.50 with 100 to
    invest (it settles on 103 pairs; the fee-less bound is 111). *)
Lemma exact_search_is_maximum_witness :
  exists n : Z,
    Sentinel.maxContracts "Kalshi" 0.40 "PredictIt" 0.50 100 Taker = Some n /\
    (0 <= n)%Z /\
    Sentinel.totalCost "Kalshi" 0.40 "PredictIt" 0.50 Taker n <= 100 /\
    forall m : Z,
      (0 <= m)%Z ->
      Sentinel.totalCost "Kalshi" 0.40 "PredictIt" 0.50 Taker m <= 100 -> (m <= n)%Z.
Proof.
  apply (exact_search_is_maximum "Kalshi" "PredictIt" 0.40 0.50 100 Taker); lra.
Defined.

(** More fuel does not change the count a run of the loop has reached. *)
Lemma decrementLoop_more_fuel :
  forall (fuel extra : nat) (cost : Double.double -> Double.double)
         (investment maxContracts result : Double.double),
    SentinelDouble.decrementLoop fuel cost investment maxContracts = Some result ->
    SentinelDouble.decrementLoop (fuel + extra) cost investment maxContracts = Some result.
Proof.
  induction fuel as [|fuel IH]; intros extra cost investment maxContracts result;
    [discriminate|].
  cbn [SentinelDouble.decrementLoop Nat.add].
  destruct (Double.ltb Double.zero maxContracts); [|exact (fun H => H)].
  destruct (Double.leb (cost maxContracts) investment); [exact (fun H => H)|].
  apply IH.
Qed.

(** C2 (code bug).  On doubles the count the decrementing loop of
    [calculateScenarioRoi] reaches is not always the maximum affordable
    one; both inputs have [baseCost < 1] and a positive investment.

    - Kalshi at 0.48 against PredictIt at 0.05, investment 100, Maker: the
      loop exits at 159.  One more pair is affordable: 160 pairs cost
      exactly 100 at the decimal prices, and no more than 100 at the
      values the two doubles stand for.  The loop steps past 160 because
      the total it computes for 160 pairs is rounded above 100.

    - Kalshi at 0.25 against Kalshi at 0.30, investment 8.25, Maker: the
      quotient [8.25 / 0.55] is rounded below 15, so the search starts at
      14 and stays there.  15 pairs are affordable in every reading: at
      the decimal prices, at the values the doubles stand for, and by the
      total the code itself computes for 15 pairs.

    Both calls are made by [calculateBestRoi] for its second scenario, at
    the YES prices 0.52 and 0.05, and 0.75 and 0.30: [1 - 0.52] and
    [1 - 0.75] are the doubles 0.48 and 0.25. *)
Theorem contract_search_misses_affordable_pair :
  (Double.sub Double.one (Double.decimal 52 2) = Double.decimal 48 2 /\
   Double.ltb (Double.add (Double.decimal 48 2) (Double.decimal 5 2)) Double.one = true /\
   Double.ltb Double.zero (Double.ofZ 100) = true /\
   (forall fuel : nat,
       SentinelDouble.maxContracts (64 + fuel) "Kalshi" (Double.decimal 48 2)
                                   "PredictIt" (Double.decimal 5 2) (Double.ofZ 100) Maker
       = Some (Double.ofZ 159)) /\
   Sentinel.totalCost "Kalshi" 0.48 "PredictIt" 0.05 Maker 160 == 100 /\
   affordable "Kalshi" (Double.decimal 48 2) "PredictIt" (Double.decimal 5 2) Maker
              (Double.ofZ 100) 160 /\
   Double.leb (SentinelDouble.totalCost "Kalshi" (Double.decimal 48 2)
                                        "PredictIt" (Double.decimal 5 2) Maker
                                        (Double.ofZ 160))
              (Double.ofZ 100) = false) /\
  (Double.sub Double.one (Double.decimal 75 2) = Double.decimal 25 2 /\
   Double.ltb (Double.add (Double.decimal 25 2) (Double.decimal 30 2)) Double.one = true /\
   Double.ltb Double.zero (Double.decimal 825 2) = true /\
   Double.floor (Double.div (Double.decimal 825 2)
                            (Double.add (Double.decimal 25 2) (Double.decimal 30 2)))
   = Double.ofZ 14 /\
   (forall fuel : nat,
       SentinelDouble.maxContracts (64 + fuel) "Kalshi" (Double.decimal 25 2)
                                   "Kalshi" (Double.decimal 30 2) (Double.decimal 825 2) Maker
       = Some (Double.ofZ 14)) /\
   Sentinel.totalCost "Kalshi" 0.25 "Kalshi" 0.30 Maker 15 == 8.25 /\
   affordable "Kalshi" (Double.decimal 25 2) "Kalshi" (Double.decimal 30 2) Maker
              (Double.decimal 825 2) 15 /\
   Double.leb (SentinelDouble.totalCost "Kalshi" (Double.decimal 25 2)
                                        "Kalshi" (Double.decimal 30 2) Maker
                                        (Double.ofZ 15))
              (Double.decimal 825 2) = true).
Proof.
  assert (Hle : forall x y : Q, Qle_bool x y = true -> x <= y)
    by (intros x y; apply Qle_bool_iff).
  assert (Heq : forall x y : Q, Qeq_bool x y = true -> x == y)
    by (intros x y; apply Qeq_bool_iff).
  split.
  - split; [vm_compute; reflexivity|].
    split; [vm_compute; reflexivity|].
    split; [vm_compute; reflexivity|].
    split; [intros fuel; apply decrementLoop_more_fuel; vm_compute; reflexivity|].
    split; [apply Heq; vm_compute; reflexivity|].
    split; [|vm_compute; reflexivity].
    unfold affordable. eexists. eexists. eexists.
    split; [vm_compute; reflexivity|].
    split; [vm_compute; reflexivity|].
    split; [vm_compute; reflexivity|].
    apply Hle. vm_compute. reflexivity.
  - split; [vm_compute; reflexivity|].
    split; [vm_compute; reflexivity|].
    split; [vm_compute; reflexivity|].
    split; [vm_compute; reflexivity|].
    split; [intros fuel; apply decrementLoop_more_fuel; vm_compute; reflexivity|].
    split; [apply Heq; vm_compute; reflexivity|].
    split; [|vm_compute; reflexivity].
    unfold affordable. eexists. eexists. eexists.
    split; [vm_compute; reflexivity|].
    split; [vm_compute; reflexivity|].
    split; [vm_compute; reflexivity|].
    apply Hle. vm_compute. reflexivity.
Qed.

(** C7.  When the pre-fee cost [priceA + priceB] is at least 1, or the
    investment is not positive, [calculateScenarioRoi] returns 0, whatever
    the venues, the order type and the other arguments. *)
Theorem calculateScenarioRoi_zero :
  forall (platformA platformB : string) (priceA priceB investment : Q) (mode : OrderMode),
    1 <= priceA + priceB \/ investment <= 0 ->
    exists r : Q,
      Sentinel.calculateScenarioRoi platformA priceA platformB priceB investment mode
        = Some (Fin r) /\ r == 0.
Proof.
  intros platformA platformB priceA priceB investment mode H.
  unfold Sentinel.calculateScenarioRoi.
  destruct (Qle_bool 1.0 (priceA + priceB)) eqn:E1.
  - exists 0.0. split; reflexivity.
  - destruct (Qle_bool investment 0) eqn:E2.
    + exists 0. split; reflexivity.
    + exfalso. destruct H as [H|H].
      * assert (Hb : Qle_bool 1.0 (priceA + priceB) = true)
          by (apply Qle_bool_iff; unfold Qle in *; simpl in *; lia).
        congruence.
      * apply Qle_bool_iff in H. congruence.
Qed.

(** A cost of exactly 1 (0.60 + 0.40) with 100 to invest, and a cost
    below 1 with nothing to invest. *)
Lemma calculateScenarioRoi_zero_witness :
  (exists r : Q,
      Sentinel.calculateScenarioRoi "Kalshi" 0.60 "Polymarket" 0.40 100 Taker
        = Some (Fin r) /\ r == 0) /\
  (exists r : Q,
      Sentinel.calculateScenarioRoi "Kalshi" 0.30 "Polymarket" 0.40 0 Taker
        = Some (Fin r) /\ r == 0).
Proof.
  split.
  - apply (calculateScenarioRoi_zero "Kalshi" "Polymarket" 0.60 0.40 100 Taker).
    left. vm_compute. discriminate.
  - apply (calculateScenarioRoi_zero "Kalshi" "Polymarket" 0.30 0.40 0 Taker).
    right. vm_compute. discriminate.
Defined.

(** C4 (as the code has it).  The Maker fee is exactly 0 on Kalshi, in
    both fee models; on every other venue the fee does not look at the
    order type, so PredictIt and IBKR charge under Maker what they charge
    under Taker.  For a pair of venues whose Maker fee is zero at every
    price and count, [calculateScenarioRoi] under Maker is the fee-free
    computation [grossScenarioRoi]. *)
Theorem maker_roi_is_gross_where_maker_is_free :
  (forall (platform : string) (price n : Q),
      toLowerCase platform = "kalshi"%string ->
      Sentinel.calculatePlatformFee platform price n Maker == 0 /\
      Calculator.calculatePlatformFee platform price n Maker == 0) /\
  (forall (platform : string) (price n : Q),
      toLowerCase platform <> "kalshi"%string ->
      Sentinel.calculatePlatformFee platform price n Maker
        = Sentinel.calculatePlatformFee platform price n Taker /\
      Calculator.calculatePlatformFee platform price n Maker
        = Calculator.calculatePlatformFee platform price n Taker) /\
  (forall (platformA platformB : string) (priceA priceB investment : Q),
      (forall p n, Sentinel.calculatePlatformFee platformA p n Maker == 0) ->
      (forall p n, Sentinel.calculatePlatformFee platformB p n Maker == 0) ->
      same_result
        (Sentinel.calculateScenarioRoi platformA priceA platformB priceB investment Maker)
        (grossScenarioRoi priceA priceB investment)).
Proof.
  split; [|split].
  - intros platform price n H.
    unfold Sentinel.calculatePlatformFee, Calculator.calculatePlatformFee.
    rewrite H. split; reflexivity.
  - intros platform price n H.
    apply String.eqb_neq in H.
    unfold Sentinel.calculatePlatformFee, Calculator.calculatePlatformFee.
    rewrite H. split; reflexivity.
  - intros platformA platformB priceA priceB investment HA HB.
    assert (Hcost : forall k,
               Sentinel.totalCost platformA priceA platformB priceB Maker k
               == (priceA + priceB) * inject_Z k + 0 + 0).
    { intros k. unfold Sentinel.totalCost. rewrite HA, HB. reflexivity. }
    unfold Sentinel.calculateScenarioRoi, grossScenarioRoi.
    rewrite (Qleb_comp 1.0 1 (eq_refl : 1.0 == 1) _ _ (Qeq_refl (priceA + priceB))).
    destruct (Qle_bool 1 (priceA + priceB)); [simpl; reflexivity|].
    destruct (Qle_bool investment 0); [simpl; reflexivity|].
    unfold Sentinel.maxContracts.
    destruct (jsdiv investment (priceA + priceB)) as [q| | |]; try exact I.
    rewrite (decrementLoop_ext _ _ investment (Z.to_nat (Qfloor q)) Hcost).
    destruct (0 <? Qfloor q)%Z;
      match goal with
      | |- context [(?n <=? 0)%Z] => destruct (n <=? 0)%Z; [simpl; reflexivity|]
      end.
    all: cbv zeta.
    all: apply jsscale_comp; apply jsdiv_comp;
      [unfold Sentinel.netProfit; rewrite Hcost; reflexivity | apply Hcost].
Qed.

(** The theorem at Kalshi, price 0.5 and 10 contracts; at PredictIt; and
    for a Kalshi/Kalshi scenario at 0.52 + 0.44 with 100 to invest. *)
Lemma maker_roi_is_gross_where_maker_is_free_witness :
  (Sentinel.calculatePlatformFee "Kalshi" 0.5 10 Maker == 0 /\
   Calculator.calculatePlatformFee "Kalshi" 0.5 10 Maker == 0) /\
  (Sentinel.calculatePlatformFee "PredictIt" 0.5 10 Maker
     = Sentinel.calculatePlatformFee "PredictIt" 0.5 10 Taker /\
   Calculator.calculatePlatformFee "PredictIt" 0.5 10 Maker
     = Calculator.calculatePlatformFee "PredictIt" 0.5 10 Taker) /\
  same_result
    (Sentinel.calculateScenarioRoi "Kalshi" 0.52 "Kalshi" 0.44 100 Maker)
    (grossScenarioRoi 0.52 0.44 100).
Proof.
  destruct maker_roi_is_gross_where_maker_is_free as [H1 [H2 H3]].
  split; [|split].
  - apply (H1 "Kalshi"%string 0.5 10). reflexivity.
  - apply (H2 "PredictIt"%string 0.5 10). discriminate.
  - apply (H3 "Kalshi"%string "Kalshi"%string 0.52 0.44 100);
      intros p n; reflexivity.
Defined.

(** C4 as stated fails on PredictIt (and on IBKR): 10 contracts at 0.5
    cost a Maker 0.5 in fees in both fee models, not 0; and the Maker ROI
    of a Kalshi/PredictIt scenario at 0.40 + 0.50 with 100 to invest is
    not the fee-free one. *)
Lemma maker_fee_not_zero_on_predictit :
  ~ (forall (platform : string) (price n : Q),
        In platform ["Kalshi"; "Polymarket"; "PredictIt"; "IBKR"]%string ->
        Sentinel.calculatePlatformFee platform price n Maker == 0 /\
        Calculator.calculatePlatformFee platform price n Maker == 0) /\
  ~ same_result (Sentinel.calculateScenarioRoi "Kalshi" 0.40 "PredictIt" 0.50 100 Maker)
                (grossScenarioRoi 0.40 0.50 100).
Proof.
  split.
  - intros H.
    destruct (H "PredictIt"%string 0.5 10) as [HS _].
    + simpl. tauto.
    + vm_compute in HS. discriminate.
  - vm_compute. discriminate.
Qed.

(** C3.  The two fee models at one Polymarket order, 100 contracts at
    0.5 under Taker: the sentinel charges 0.005 (0.01 percent of the trade
    value), the calculator charges nothing.  They part again on the venue
    name the calculator itself displays, "IBKR ForecastEx": a flat 0.01 per
    contract in the calculator, an unknown venue (fee 0) in the sentinel. *)
Theorem fee_models_differ :
  Sentinel.calculatePlatformFee "Polymarket" 0.5 100 Taker == 0.005 /\
  Calculator.calculatePlatformFee "Polymarket" 0.5 100 Taker == 0 /\
  Sentinel.calculatePlatformFee "IBKR ForecastEx" 0.5 100 Taker == 0 /\
  Calculator.calculatePlatformFee "IBKR ForecastEx" 0.5 100 Taker == 1.
Proof.
  repeat split.
Qed.

(** C6 (as the code has it).  On a venue pair that charges no fee, with
    yes prices 0.52 on A and 0.56 on B and 100 to invest, the scenario
    YES on A + NO on B has base cost 0.96, settles on 104 contracts and
    invests 99.84; the 104 paired contracts pay 104, so the net profit is
    4.16 and the ROI is 4.16 / 99.84 x 100 (25/6, about 4.17 percent).
    [calculateBestRoi] reports that ROI, for scenario 1. *)
Theorem bestRoi_fee_free_example :
  forall (platformA platformB : string) (mode : OrderMode),
    (forall p n, Sentinel.calculatePlatformFee platformA p n mode == 0) ->
    (forall p n, Sentinel.calculatePlatformFee platformB p n mode == 0) ->
    0.52 + (1 - 0.56) == 0.96 /\
    Sentinel.maxContracts platformA 0.52 platformB (1 - 0.56) 100 mode = Some 104%Z /\
    Sentinel.totalCost platformA 0.52 platformB (1 - 0.56) mode 104 == 99.84 /\
    Sentinel.netProfit platformA 0.52 platformB (1 - 0.56) mode 104 == 4.16 /\
    exists (b : Sentinel.BestRoi) (r : Q),
      Sentinel.calculateBestRoi platformA 0.52 platformB 0.56 100 mode = Some b /\
      Sentinel.scenario b = 1%nat /\
      Sentinel.roi b = Fin r /\
      r == 4.16 / 99.84 * 100.
Proof.
  intros platformA platformB mode HA HB.
  assert (Hcost : forall k,
             Sentinel.totalCost platformA 0.52 platformB (1 - 0.56) mode k
             == 0.96 * inject_Z k).
  { intros k. unfold Sentinel.totalCost. rewrite HA, HB. ring. }
  assert (Hmax : Sentinel.maxContracts platformA 0.52 platformB (1 - 0.56) 100 mode
                 = Some 104%Z).
  { unfold Sentinel.maxContracts.
    change (jsdiv 100 (0.52 + (1 - 0.56))) with (Fin (100 / (0.52 + (1 - 0.56)))).
    change (Qfloor (100 / (0.52 + (1 - 0.56)))) with 104%Z.
    change (0 <? 104)%Z with true. cbv iota.
    rewrite decrementLoop_stay; [reflexivity|].
    rewrite Hcost. discriminate. }
  assert (Hnet : Sentinel.netProfit platformA 0.52 platformB (1 - 0.56) mode 104 == 4.16).
  { unfold Sentinel.netProfit. rewrite Hcost. reflexivity. }
  split; [reflexivity|]. split; [exact Hmax|].
  split; [rewrite Hcost; reflexivity|]. split; [exact Hnet|].
  unfold Sentinel.calculateBestRoi, Sentinel.calculateScenarioRoi.
  rewrite Hmax.
  change (Qle_bool 1.0 (0.52 + (1 - 0.56))) with false.
  change (Qle_bool 1.0 (1 - 0.52 + 0.56)) with true.
  change (Qle_bool 100 0) with false.
  change (104 <=? 0)%Z with false. cbv iota zeta.
  pose proof (Hcost 104%Z) as H104.
  set (total := Sentinel.totalCost platformA 0.52 platformB (1 - 0.56) mode 104) in *.
  set (net := Sentinel.netProfit platformA 0.52 platformB (1 - 0.56) mode 104) in *.
  assert (Hnz : Qeq_bool total 0 = false).
  { rewrite (Qeqb_comp _ _ H104 0 0 (Qeq_refl 0)). reflexivity. }
  unfold jsdiv. rewrite Hnz. cbn [jsscale].
  assert (Hr : net / total * 100 == 4.16 / 99.84 * 100).
  { rewrite Hnet, H104. reflexivity. }
  assert (Hge : jsge (Fin (net / total * 100)) (Fin 0.0) = true).
  { cbn [jsge]. apply Qle_bool_iff. rewrite Hr. discriminate. }
  rewrite Hge. cbn [Nat.eqb]. cbv iota.
  change (Qlt_bool (0.52 + (1 - 0.56)) 1) with true. cbv iota.
  rewrite Hmax.
  eexists. exists (net / total * 100).
  split; [reflexivity|]. cbn [Sentinel.scenario Sentinel.roi].
  split; [reflexivity|]. split; [|exact Hr].
  unfold jsmax. rewrite Hge. reflexivity.
Qed.

(** The example on a Kalshi/Kalshi pair under Maker, the fee-free
    combination of the sentinel's supported venues. *)
Lemma bestRoi_fee_free_example_witness :
  0.52 + (1 - 0.56) == 0.96 /\
  Sentinel.maxContracts "Kalshi" 0.52 "Kalshi" (1 - 0.56) 100 Maker = Some 104%Z /\
  Sentinel.totalCost "Kalshi" 0.52 "Kalshi" (1 - 0.56) Maker 104 == 99.84 /\
  Sentinel.netProfit "Kalshi" 0.52 "Kalshi" (1 - 0.56) Maker 104 == 4.16 /\
  exists (b : Sentinel.BestRoi) (r : Q),
    Sentinel.calculateBestRoi "Kalshi" 0.52 "Kalshi" 0.56 100 Maker = Some b /\
    Sentinel.scenario b = 1%nat /\
    Sentinel.roi b = Fin r /\
    r == 4.16 / 99.84 * 100.
Proof.
  apply (bestRoi_fee_free_example "Kalshi" "Kalshi" Maker); intros p n; reflexivity.
Defined.

(** C6 as stated fails: on the fee-free Kalshi/Kalshi Maker pair the net
    profit of the 104 contracts is not 0.16 and the ROI [calculateBestRoi]
    reports is not 0.16 / 99.84 x 100. *)
Lemma bestRoi_example_profit_is_not_leftover :
  ~ (Sentinel.netProfit "Kalshi" 0.52 "Kalshi" (1 - 0.56) Maker 104 == 0.16) /\
  ~ (exists (b : Sentinel.BestRoi) (r : Q),
        Sentinel.calculateBestRoi "Kalshi" 0.52 "Kalshi" 0.56 100 Maker = Some b /\
        Sentinel.roi b = Fin r /\
        r == 0.16 / 99.84 * 100).
Proof.
  split.
  - vm_compute. discriminate.
  - intros (b & r & Hb & Hr & Heq).
    vm_compute in Hb. injection Hb as <-. cbn [Sentinel.roi] in Hr.
    injection Hr as <-. vm_compute in Heq. discriminate.
Qed.

(* ================================================================= *)
(** * The matcher and the opportunity scan *)

Section MatcherClaims.

Import MarketApi.

(** Two listings whose titles share no event label and whose year sets
    are both non-empty and disjoint score 0 in either order, and no
    opportunity pairs them. *)
Lemma year_conflict_never_matched (a b : StandardizedMarket) :
  overlaps (extractEvents (title a)) (extractEvents (title b)) = false ->
  nonEmpty (years (extractEntities (title a))) = true ->
  nonEmpty (years (extractEntities (title b))) = true ->
  overlaps (years (extractEntities (title a))) (years (extractEntities (title b))) = false ->
  fst (calculateSimilarity a b) = 0%Z /\
  forall (markets : list StandardizedMarket) (minRoi : Q) (o : ArbitrageOpportunity),
    In o (findArbitrageOpportunities markets minRoi) ->
    ~ (marketA o = a /\ marketB o = b) /\ ~ (marketA o = b /\ marketB o = a).
Proof.
  intros Hev Ha Hb Hy.
  pose proof (year_conflict_score a b Hev Ha Hb Hy) as Sab.
  assert (Sba : fst (calculateSimilarity b a) = 0%Z).
  { apply year_conflict_score; try assumption; rewrite overlaps_sym; assumption. }
  split; [exact Sab|].
  intros markets minRoi o Ho.
  destruct (findArbitrageOpportunities_emitted minRoi markets o Ho) as (x & y & _ & Hs & Hin).
  apply scenarios_In in Hin as (Hshape & _).
  unfold minSimilarity in Hs.
  split; intros [EA EB];
    destruct Hshape as [(HA & HB & _)|(HA & HB & _)];
    rewrite EA in HA; rewrite EB in HB; subst x y; lia.
Qed.

(** C1 (as the code has it).  Two listings whose titles are identical
    except for the year token, the only year of each title, and share no
    event label score 0, and no opportunity pairing them, in either
    orientation, is in the output of [findArbitrageOpportunities],
    whatever the prices, the other listings and [minRoi]. *)
Theorem year_only_difference_never_matched :
  forall a b : StandardizedMarket,
    differOnlyInYear (title a) (title b) ->
    overlaps (extractEvents (title a)) (extractEvents (title b)) = false ->
    fst (calculateSimilarity a b) = 0%Z /\
    forall (markets : list StandardizedMarket) (minRoi : Q) (o : ArbitrageOpportunity),
      In o (findArbitrageOpportunities markets minRoi) ->
      ~ (marketA o = a /\ marketB o = b) /\ ~ (marketA o = b /\ marketB o = a).
Proof.
  intros a b (before & after & yearA & yearB & _ & _ & Hne & HA & HB) Hev.
  apply year_conflict_never_matched; [exact Hev | | | ]; rewrite ?HA, ?HB; try reflexivity.
  unfold overlaps, mem. simpl.
  destruct (String.eqb_spec yearA yearB); [contradiction|reflexivity].
Qed.

(** Two Biden listings, one for 2025 and one for 2026. *)
Lemma year_only_difference_never_matched_witness :
  fst (calculateSimilarity Samples.biden2025 Samples.biden2026) = 0%Z /\
  forall (markets : list StandardizedMarket) (minRoi : Q) (o : ArbitrageOpportunity),
    In o (findArbitrageOpportunities markets minRoi) ->
    ~ (marketA o = Samples.biden2025 /\ marketB o = Samples.biden2026) /\
    ~ (marketA o = Samples.biden2026 /\ marketB o = Samples.biden2025).
Proof.
  apply (year_only_difference_never_matched Samples.biden2025 Samples.biden2026).
  - exists "Will Biden resign in "%string, "?"%string, "2025"%string, "2026"%string.
    repeat split; try discriminate; vm_compute; reflexivity.
  - vm_compute. reflexivity.
Defined.

(** C1 as stated fails: two Trump listings that differ only in the year
    share the event label [trump-tariffs-china], score 95, and are
    reported as an opportunity (0.40 + 0.50 = 0.90). *)
Lemma year_only_difference_matched_by_event :
  differOnlyInYear (title Samples.tariffs2025) (title Samples.tariffs2026) /\
  calculateSimilarity Samples.tariffs2025 Samples.tariffs2026
    = (95%Z, "trump-tariffs-china"%string) /\
  exists o : ArbitrageOpportunity,
    In o (findArbitrageOpportunities [Samples.tariffs2025; Samples.tariffs2026] 0) /\
    marketA o = Samples.tariffs2025 /\ marketB o = Samples.tariffs2026.
Proof.
  split; [|split].
  - exists "Will Trump impose tariffs on China in "%string, "?"%string,
      "2025"%string, "2026"%string.
    repeat split; try discriminate; vm_compute; reflexivity.
  - vm_compute. reflexivity.
  - eexists. split; [vm_compute; left; reflexivity|]. split; reflexivity.
Qed.

(** C5.  Every opportunity in the output of [findArbitrageOpportunities]
    pairs listings of two different venues, carries a match score of at
    least 60 (so not zero), has a combined pre-fee cost strictly below 1
    and an ROI of at least [minRoi]. *)
Theorem opportunity_invariants :
  forall (markets : list StandardizedMarket) (minRoi : Q) (o : ArbitrageOpportunity),
    In o (findArbitrageOpportunities markets minRoi) ->
    platform (marketA o) <> platform (marketB o) /\
    (60 <= matchScore o)%Z /\ matchScore o <> 0%Z /\
    combinedYesCost o < 1 /\
    jsge (roi o) (Fin minRoi) = true.
Proof.
  intros markets minRoi o Ho.
  destruct (findArbitrageOpportunities_emitted minRoi markets o Ho)
    as (a & b & Hp & Hs & Hin).
  apply scenarios_In in Hin as (Hshape & Hcost & _ & _ & Hroi & Hscore & _).
  unfold minSimilarity in Hs. rewrite <- Hscore in Hs.
  repeat split; try assumption; try lia.
  destruct Hshape as [(-> & -> & _)|(-> & -> & _)]; [exact Hp|].
  intros E. apply Hp. symmetry. exact E.
Qed.

(** The spec's end-to-end pair, Kalshi at 0.40 against Polymarket at
    0.50, with a minimum ROI of 5. *)
Lemma opportunity_invariants_witness :
  platform (marketA Samples.fedOpportunity) <> platform (marketB Samples.fedOpportunity) /\
  (60 <= matchScore Samples.fedOpportunity)%Z /\ matchScore Samples.fedOpportunity <> 0%Z /\
  combinedYesCost Samples.fedOpportunity < 1 /\
  jsge (roi Samples.fedOpportunity) (Fin 5) = true.
Proof.
  apply (opportunity_invariants [Samples.fedKalshi; Samples.fedPolymarket] 5
                                Samples.fedOpportunity).
  vm_compute. left. reflexivity.
Defined.

(** C10.  Every opportunity in the output is coherent, in either
    orientation of the pair: its combined cost is the yes price of its
    [marketA] plus the no price of its [marketB], its potential profit is
    1 minus that cost, and its ROI is profit over cost, times 100. *)
Theorem opportunity_coherent :
  forall (markets : list StandardizedMarket) (minRoi : Q) (o : ArbitrageOpportunity),
    In o (findArbitrageOpportunities markets minRoi) ->
    combinedYesCost o == yesPrice (marketA o) + noPrice (marketB o) /\
    potentialProfit o == 1 - combinedYesCost o /\
    roi o = jsscale (jsdiv (potentialProfit o) (combinedYesCost o)) 100.
Proof.
  intros markets minRoi o Ho.
  destruct (findArbitrageOpportunities_emitted minRoi markets o Ho)
    as (a & b & _ & _ & Hin).
  apply scenarios_In in Hin as (Hshape & _ & Hprofit & Hroi & _).
  repeat split.
  - destruct Hshape as [(-> & -> & ->)|(-> & -> & ->)]; [reflexivity|apply Qplus_comm].
  - rewrite Hprofit. reflexivity.
  - exact Hroi.
Qed.

(** The same pair: its one opportunity is the second scenario of the
    scan, with the two listings swapped. *)
Lemma opportunity_coherent_witness :
  combinedYesCost Samples.fedOpportunity
    == yesPrice (marketA Samples.fedOpportunity) + noPrice (marketB Samples.fedOpportunity) /\
  potentialProfit Samples.fedOpportunity == 1 - combinedYesCost Samples.fedOpportunity /\
  roi Samples.fedOpportunity
    = jsscale (jsdiv (potentialProfit Samples.fedOpportunity)
                     (combinedYesCost Samples.fedOpportunity)) 100.
Proof.
  apply (opportunity_coherent [Samples.fedKalshi; Samples.fedPolymarket] 0
                              Samples.fedOpportunity).
  vm_compute. left. reflexivity.
Defined.

(** C8.  Two titles without any party term.  "Who will win the governor
    race?" is tagged republican, because [r\b] matches the last letter of
    "governor"; "Fed Rate Cut in 2025" is tagged democrat, because [d\b]
    matches the last letter of "Fed". *)
Theorem party_tag_from_word_endings :
  test true republicanFamily (toLowerCase "Who will win the governor race?") = false /\
  test true democratFamily (toLowerCase "Who will win the governor race?") = false /\
  party (extractEntities "Who will win the governor race?") = Some "republican"%string /\
  test true republicanFamily (toLowerCase "Fed Rate Cut in 2025") = false /\
  test true democratFamily (toLowerCase "Fed Rate Cut in 2025") = false /\
  party (extractEntities "Fed Rate Cut in 2025") = Some "democrat"%string.
Proof.
  repeat split; vm_compute; reflexivity.
Qed.

(** C9.  Four listings with distinct ids, all in the one retained bucket
    [trump].  The cross-venue pairs (1234, 5678-9012) and (1234-5678,
    9012) are different pairs with the same key "1234-5678-9012"; the
    scan hands the first to the scorer and then skips the second as
    already compared, in either order of its two listings.  The key of a
    pair does not depend on the order of the two listings. *)
Theorem pair_key_collision_skips_a_pair :
  NoDup (map id Samples.collidingMarkets) /\
  buildKeywordIndex Samples.collidingMarkets = [("trump"%string, Samples.collidingMarkets)] /\
  singlePlatform Samples.collidingMarkets = false /\
  sortedBucket Samples.collidingMarkets = Samples.collidingMarkets /\
  platform Samples.predictit1234_5678 <> platform Samples.poly9012 /\
  pairKey Samples.predictit1234_5678 Samples.poly9012
    = pairKey Samples.poly1234 Samples.predictit5678_9012 /\
  In (Samples.poly1234, Samples.predictit5678_9012)
     (scored (scanMarkets Samples.collidingMarkets 0)) /\
  ~ In (Samples.predictit1234_5678, Samples.poly9012)
       (scored (scanMarkets Samples.collidingMarkets 0)) /\
  ~ In (Samples.poly9012, Samples.predictit1234_5678)
       (scored (scanMarkets Samples.collidingMarkets 0)) /\
  (forall a b : StandardizedMarket, pairKey a b = pairKey b a).
Proof.
  split; [|split; [|split; [|split; [|split; [|split; [|split; [|split; [|split]]]]]]]].
  - vm_compute. repeat constructor; simpl; intuition discriminate.
  - vm_compute. reflexivity.
  - reflexivity.
  - vm_compute. reflexivity.
  - discriminate.
  - vm_compute. reflexivity.
  - vm_compute. left. reflexivity.
  - vm_compute. intuition discriminate.
  - vm_compute. intuition discriminate.
  - apply pairKey_sym.
Qed.

End MatcherClaims.

(* ================================================================= *)
(** * Further properties of the matcher *)

Section SetFacts.

Lemma setAdd_In (x y : string) (set : list string) :
  In y (setAdd x set) <-> y = x \/ In y set.
Proof.
  unfold setAdd. destruct (mem x set) eqn:E.
  - apply mem_In in E. split; [tauto|]. intros [->|H]; assumption.
  - rewrite in_app_iff. simpl. split; intros; intuition auto.
Qed.

Lemma setAdd_NoDup (x : string) (set : list string) :
  NoDup set -> NoDup (setAdd x set).
Proof.
  intros H. unfold setAdd. destruct (mem x set) eqn:E; [exact H|].
  apply NoDup_app; [exact H | repeat constructor; intros [] |].
  intros y Hy [<-|[]]. apply mem_In in Hy. congruence.
Qed.

Lemma addAll_In (array set : list string) (y : string) :
  In y (fold_left (fun set x => setAdd x set) array set) <-> In y set \/ In y array.
Proof.
  revert set. induction array as [|x rest IH]; intros set; simpl; [tauto|].
  rewrite IH, setAdd_In. intuition auto.
Qed.

Lemma addAll_NoDup (array set : list string) :
  NoDup set -> NoDup (fold_left (fun set x => setAdd x set) array set).
Proof.
  revert set. induction array as [|x rest IH]; intros set H; simpl; [exact H|].
  apply IH, setAdd_NoDup, H.
Qed.

(** [new Set(array)] holds the elements of the array, once each. *)
Lemma newSet_In (array : list string) (y : string) : In y (newSet array) <-> In y array.
Proof. unfold newSet. rewrite addAll_In. simpl. tauto. Qed.

Lemma newSet_NoDup (array : list string) : NoDup (newSet array).
Proof. apply addAll_NoDup. constructor. Qed.

(** Two duplicate-free arrays with the same elements have the same size. *)
Lemma same_elements_length (l1 l2 : list string) :
  NoDup l1 -> NoDup l2 -> (forall x, In x l1 <-> In x l2) -> List.length l1 = List.length l2.
Proof.
  intros H1 H2 H. apply Permutation_length, NoDup_Permutation; assumption.
Qed.

(** The number of elements of [l1] found in [l2] is the number of
    elements of [l2] found in [l1], for duplicate-free arrays. *)
Lemma common_length_sym (l1 l2 : list string) :
  NoDup l1 -> NoDup l2 ->
  List.length (filter (fun x => mem x l2) l1) = List.length (filter (fun x => mem x l1) l2).
Proof.
  intros H1 H2. apply same_elements_length; try (apply NoDup_filter; assumption).
  intros x. rewrite !filter_In, !mem_In. tauto.
Qed.

End SetFacts.

Section JaccardFacts.

Import MarketApi.

Lemma jaccard_sizes (setA setB : list string) :
  (List.length (newSet (filter (fun x => mem x setB) setA))
   <= List.length (newSet (setA ++ setB)))%nat.
Proof.
  apply NoDup_incl_length; [apply newSet_NoDup|].
  intros x. rewrite !newSet_In, filter_In, in_app_iff. tauto.
Qed.

(** The quotient of the two sizes is a fraction. *)
Lemma jaccard_fraction :
  forall setA setB : list string,
    0 <= jaccardSimilarity setA setB <= 1.
Proof.
  intros setA setB. unfold jaccardSimilarity. cbv zeta.
  pose proof (jaccard_sizes setA setB) as Hle.
  set (i := List.length (newSet (filter (fun x => mem x setB) setA))) in *.
  set (u := List.length (newSet (setA ++ setB))) in *.
  destruct (0 <? u)%nat eqn:E; [|split; discriminate].
  apply Nat.ltb_lt in E.
  assert (Hu : 0 < inject_Z (Z.of_nat u)).
  { change 0 with (inject_Z 0). rewrite <- Zlt_Qlt. lia. }
  split.
  - apply Qle_shift_div_l; [exact Hu|]. rewrite Qmult_0_l.
    change 0 with (inject_Z 0). rewrite <- Zle_Qle. lia.
  - apply Qle_shift_div_r; [exact Hu|]. rewrite Qmult_1_l.
    rewrite <- Zle_Qle. lia.
Qed.

(** Two arrays share no element exactly when the intersection set is
    empty. *)
Lemma intersection_empty :
  forall setA setB : list string,
    newSet (filter (fun x => mem x setB) setA) = [] <->
    forall x, In x setA -> ~ In x setB.
Proof.
  intros setA setB. split.
  - intros E x HA HB.
    assert (Hx : In x (newSet (filter (fun x => mem x setB) setA)))
      by (rewrite newSet_In, filter_In, mem_In; tauto).
    rewrite E in Hx. exact Hx.
  - intros H. destruct (newSet (filter (fun x => mem x setB) setA)) as [|x l] eqn:E;
      [reflexivity|exfalso].
    assert (Hx : In x (newSet (filter (fun x => mem x setB) setA)))
      by (rewrite E; left; reflexivity).
    rewrite newSet_In, filter_In, mem_In in Hx. destruct Hx as [HA HB].
    exact (H x HA HB).
Qed.

(** X1.  The Jaccard similarity of any two token arrays lies between 0
    and 1; it is 0 exactly when the two arrays have no token in common,
    and so when the union is empty. *)
Theorem jaccardSimilarity_range :
  forall setA setB : list string,
    0 <= jaccardSimilarity setA setB <= 1 /\
    (jaccardSimilarity setA setB == 0 <-> forall x, In x setA -> ~ In x setB) /\
    (newSet (setA ++ setB) = [] -> jaccardSimilarity setA setB = 0).
Proof.
  intros setA setB. split; [apply jaccard_fraction|].
  rewrite <- intersection_empty.
  unfold jaccardSimilarity. cbv zeta.
  pose proof (jaccard_sizes setA setB) as Hle.
  assert (Hlen : forall l : list string, List.length l = 0%nat <-> l = []).
  { intros l. destruct l; split; (reflexivity || discriminate). }
  rewrite <- Hlen.
  set (i := List.length (newSet (filter (fun x => mem x setB) setA))) in *.
  set (u := List.length (newSet (setA ++ setB))) in *.
  destruct (0 <? u)%nat eqn:E.
  - apply Nat.ltb_lt in E.
    assert (Hu : 0 < inject_Z (Z.of_nat u)).
    { change 0 with (inject_Z 0). rewrite <- Zlt_Qlt. lia. }
    split.
    + split.
      * intros H0.
        assert (Hi : inject_Z (Z.of_nat i) == 0).
        { assert (Hne : ~ inject_Z (Z.of_nat u) == 0)
            by (intros Hz; rewrite Hz in Hu; revert Hu; apply Qlt_irrefl).
          transitivity (inject_Z (Z.of_nat u)
                        * (inject_Z (Z.of_nat i) / inject_Z (Z.of_nat u))).
          - symmetry. apply Qmult_div_r. exact Hne.
          - rewrite H0. ring. }
        unfold Qeq in Hi. cbn [Qnum Qden inject_Z] in Hi. lia.
      * intros ->. change (inject_Z (Z.of_nat 0)) with 0. unfold Qdiv. ring.
    + intros Hempty. exfalso. unfold u in E. rewrite Hempty in E. simpl in E. lia.
  - apply Nat.ltb_ge in E. split.
    + split; [lia|reflexivity].
    + reflexivity.
Qed.

(** The two sizes do not depend on the order of the arguments. *)
Lemma jaccard_comm :
  forall setA setB : list string,
    jaccardSimilarity setA setB = jaccardSimilarity setB setA.
Proof.
  intros setA setB. unfold jaccardSimilarity. cbv zeta.
  assert (Hi : List.length (newSet (filter (fun x => mem x setB) setA))
               = List.length (newSet (filter (fun x => mem x setA) setB))).
  { apply same_elements_length; try apply newSet_NoDup.
    intros x. rewrite !newSet_In, !filter_In, !mem_In. tauto. }
  assert (Hu : List.length (newSet (setA ++ setB)) = List.length (newSet (setB ++ setA))).
  { apply same_elements_length; try apply newSet_NoDup.
    intros x. rewrite !newSet_In, !in_app_iff. tauto. }
  rewrite Hi, Hu. reflexivity.
Qed.

(** X2.  The Jaccard similarity does not depend on the order of its two
    arguments, and an array that is not empty has similarity 1 with
    itself. *)
Theorem jaccardSimilarity_sym :
  forall setA setB : list string,
    jaccardSimilarity setA setB = jaccardSimilarity setB setA /\
    (setA <> [] -> jaccardSimilarity setA setA == 1).
Proof.
  intros setA setB. split.
  - apply jaccard_comm.
  - intros Hne. unfold jaccardSimilarity. cbv zeta.
    assert (Hiu : List.length (newSet (filter (fun x => mem x setA) setA))
                  = List.length (newSet (setA ++ setA))).
    { apply same_elements_length; try apply newSet_NoDup.
      intros x. rewrite !newSet_In, !filter_In, !mem_In, in_app_iff. tauto. }
    rewrite Hiu.
    assert (Hpos : (0 < List.length (newSet (setA ++ setA)))%nat).
    { destruct setA as [|x rest]; [congruence|].
      assert (Hx : In x (newSet ((x :: rest) ++ x :: rest))) by (apply newSet_In; now left).
      destruct (newSet ((x :: rest) ++ x :: rest)); [destruct Hx | simpl; lia]. }
    apply Nat.ltb_lt in Hpos as Hb. rewrite Hb.
    set (n := List.length (newSet (setA ++ setA))) in *.
    assert (Hn : 0 < inject_Z (Z.of_nat n)).
    { change 0 with (inject_Z 0). rewrite <- Zlt_Qlt. lia. }
    field. lra.
Qed.

End JaccardFacts.

(** A property kept by the steps taken on the elements of the list holds
    when the loop ends. *)
Lemma fold_left_invariant_In {S X : Type} (P : S -> Prop) (step : S -> X -> S) (xs : list X) :
  (forall s x, In x xs -> P s -> P (step s x)) ->
  forall s, P s -> P (fold_left step xs s).
Proof.
  induction xs as [|x rest IH]; intros Hstep s Hs; simpl; [exact Hs|].
  apply IH.
  - intros s' x' Hx. apply Hstep. now right.
  - apply Hstep; [now left | exact Hs].
Qed.

Section ScoreFacts.

Import MarketApi.

(** The canonical keys recorded from a table are keys of the table, once
    each. *)
Lemma canonicalHits_spec (table : list (string * list string)) (normalized : string) :
  NoDup (canonicalHits table normalized) /\
  forall key, In key (canonicalHits table normalized) -> In key (map fst table).
Proof.
  unfold canonicalHits.
  apply (fold_left_invariant_In
           (fun set => NoDup set /\ forall key, In key set -> In key (map fst table))).
  - intros set [canonical variants] Hin [Hnd Hsub].
    destruct (existsb _ variants); [|now split].
    split; [now apply setAdd_NoDup|].
    intros key Hk. apply setAdd_In in Hk as [->|Hk]; [|now apply Hsub].
    apply (in_map fst) in Hin. exact Hin.
  - split; [constructor | intros key []].
Qed.

Lemma names_NoDup (title : string) : NoDup (names (extractEntities title)).
Proof. apply canonicalHits_spec. Qed.

Lemma veto_sym (l1 l2 : list string) :
  nonEmpty l1 && nonEmpty l2 && negb (overlaps l1 l2)
  = nonEmpty l2 && nonEmpty l1 && negb (overlaps l2 l1).
Proof.
  rewrite (overlaps_sym l1 l2). destruct (nonEmpty l1), (nonEmpty l2); reflexivity.
Qed.

Lemma shared_nonEmpty_sym (l1 l2 : list string) :
  nonEmpty (filter (fun t => mem t l2) l1) = nonEmpty (filter (fun t => mem t l1) l2).
Proof.
  assert (H : forall a b : list string,
             nonEmpty (filter (fun t => mem t b) a) = overlaps a b).
  { intros a b. unfold nonEmpty, overlaps.
    induction a as [|x rest IH]; simpl; [reflexivity|].
    destruct (mem x b); simpl; [reflexivity | exact IH]. }
  rewrite !H. apply overlaps_sym.
Qed.

(** X3.  The score of a pair does not depend on the order in which the
    two listings are given to [calculateSimilarity]. *)
Theorem calculateSimilarity_score_sym :
  forall a b : StandardizedMarket,
    fst (calculateSimilarity a b) = fst (calculateSimilarity b a).
Proof.
  intros a b. unfold calculateSimilarity.
  destruct (find (fun ea => mem ea (extractEvents (title b))) (extractEvents (title a)))
    as [ea|] eqn:Eab;
  destruct (find (fun ea => mem ea (extractEvents (title a))) (extractEvents (title b)))
    as [eb|] eqn:Eba; try reflexivity.
  - exfalso. apply find_none_overlaps in Eba. rewrite overlaps_sym in Eba.
    apply find_none_overlaps in Eba. congruence.
  - exfalso. apply find_none_overlaps in Eab. rewrite overlaps_sym in Eab.
    apply find_none_overlaps in Eab. congruence.
  - cbv zeta.
    set (ea := extractEntities (title a)). set (eb := extractEntities (title b)).
    set (ta := extractTokens (title a)). set (tb := extractTokens (title b)).
    assert (Hparty :
              match party eb, party ea with
              | Some pa, Some pb => negb (pa =? pb)%string
              | _, _ => false
              end
              = match party ea, party eb with
                | Some pa, Some pb => negb (pa =? pb)%string
                | _, _ => false
                end).
    { destruct (party ea), (party eb); try reflexivity. now rewrite String.eqb_sym. }
    rewrite Hparty.
    rewrite (veto_sym (states eb) (states ea)).
    rewrite (veto_sym (timeFrames eb) (timeFrames ea)).
    rewrite (veto_sym (years eb) (years ea)).
    rewrite (veto_sym (numbers eb) (numbers ea)).
    rewrite (jaccard_comm tb ta).
    rewrite (shared_nonEmpty_sym (timeFrames eb) (timeFrames ea)).
    rewrite (andb_comm (nonEmpty (timeFrames eb)) (nonEmpty (timeFrames ea))).
    rewrite (shared_nonEmpty_sym (names eb) (names ea)).
    rewrite (common_length_sym (names eb) (names ea) (names_NoDup _) (names_NoDup _)).
    destruct (match party ea with Some pa => _ | None => _ end); [reflexivity|].
    destruct (nonEmpty (states ea) && _ && _); [reflexivity|].
    destruct (nonEmpty (timeFrames ea) && nonEmpty (timeFrames eb)
              && negb (overlaps (timeFrames ea) (timeFrames eb))); [reflexivity|].
    destruct (Qle_bool 0.25 _); [|reflexivity].
    destruct (nonEmpty (years ea) && _ && _); [reflexivity|].
    destruct (nonEmpty (numbers ea) && _ && _); [reflexivity|].
    match goal with
    | |- fst (if ?c then _ else _) = _ => destruct c; reflexivity
    end.
Qed.

Lemma round_percent_bounds (jaccard : Q) :
  0.25 <= jaccard -> jaccard <= 1 ->
  (25 <= round (jaccard * 100) <= 100)%Z.
Proof.
  intros Hlo Hhi. unfold round. split.
  - rewrite <- (Qfloor_Z 25). apply Qfloor_resp_le.
    change (inject_Z 25) with 25. lra.
  - pose proof (Qfloor_le (jaccard * 100 + (1 # 2))) as H.
    assert (Hlt : inject_Z (Qfloor (jaccard * 100 + (1 # 2))) < inject_Z 101).
    { change (inject_Z 101) with 101. lra. }
    rewrite <- Zlt_Qlt in Hlt. lia.
Qed.

(** X4.  A pair either scores 0, with an empty reason, or scores between
    25 and 100. *)
Theorem calculateSimilarity_range :
  forall a b : StandardizedMarket,
    calculateSimilarity a b = (0%Z, ""%string) \/
    (25 <= fst (calculateSimilarity a b) <= 100)%Z.
Proof.
  intros a b. unfold calculateSimilarity.
  destruct (find _ (extractEvents (title a))); [right; simpl; lia|].
  cbv zeta.
  destruct (match party (extractEntities (title a)) with
            | Some pa => _ | None => _ end); [now left|].
  destruct (nonEmpty (states (extractEntities (title a))) && _ && _); [now left|].
  destruct (nonEmpty (timeFrames (extractEntities (title a))) && _ && _); [now left|].
  destruct (Qle_bool 0.25 _) eqn:Ej; [|now left].
  apply Qle_bool_iff in Ej.
  pose proof (round_percent_bounds _ Ej (proj2 (jaccard_fraction _ _))) as Hr.
  set (r := round _) in *.
  destruct (nonEmpty (years (extractEntities (title a))) && _ && _); [now left|].
  destruct (nonEmpty (numbers (extractEntities (title a))) && _ && _); [now left|].
  set (n := Z.of_nat (List.length (filter _ (names (extractEntities (title a)))))).
  assert (Hn : (0 <= n)%Z) by apply Nat2Z.is_nonneg.
  match goal with
  | |- (if ?c then _ else _) = _ \/ _ => destruct c; [now left|right]
  end.
  cbn [fst]. fold n.
  repeat match goal with
         | |- context [if ?c then _ else _] => destruct c
         end; lia.
Qed.

End ScoreFacts.

Section TokenFacts.

Import MarketApi.

(** X5.  The token set of a title has no duplicates, no stop word and no
    token shorter than three characters. *)
Theorem extractTokens_spec :
  forall title : string,
    NoDup (extractTokens title) /\
    forall t, In t (extractTokens title) ->
              (2 < String.length t)%nat /\ ~ In t stopWords.
Proof.
  intros title. unfold extractTokens. cbv zeta. split; [apply newSet_NoDup|].
  intros t Ht. apply newSet_In, filter_In in Ht as [_ Ht].
  apply andb_true_iff in Ht as [Hlen Hstop]. split.
  - now apply Nat.ltb_lt.
  - intros Hin. apply mem_In in Hin. rewrite Hin in Hstop. discriminate.
Qed.

(** X6.  The states and the names of an entity bag are canonical keys of
    the two tables (never an abbreviation or a variant), each at most
    once. *)
Theorem canonical_states_and_names :
  forall title : string,
    NoDup (states (extractEntities title)) /\
    NoDup (names (extractEntities title)) /\
    (forall s, In s (states (extractEntities title)) -> In s (map fst stateMap)) /\
    (forall n, In n (names (extractEntities title)) -> In n (map fst nameMap)).
Proof.
  intros title.
  pose proof (canonicalHits_spec stateMap (toLowerCase title)) as [H1 H2].
  pose proof (canonicalHits_spec nameMap (toLowerCase title)) as [H3 H4].
  repeat split; assumption.
Qed.

End TokenFacts.

Section ScanMembership.

Import MarketApi.

Variable markets : list StandardizedMarket.
Variable minRoi : Q.

Lemma pushTo_buckets (key : string) (m : StandardizedMarket) (index : KeywordIndex)
    (P : StandardizedMarket -> Prop) :
  P m ->
  (forall entry, In entry index -> forall x, In x (snd entry) -> P x) ->
  forall entry, In entry (pushTo key m index) -> forall x, In x (snd entry) -> P x.
Proof.
  intros Hm. induction index as [|[k bucket] rest IH]; intros Hidx entry Hin x Hx.
  - destruct Hin as [<-|[]]. destruct Hx as [<-|[]]. exact Hm.
  - simpl in Hin. destruct (k =? key)%string.
    + destruct Hin as [<-|Hin].
      * simpl in Hx. apply in_app_or in Hx as [Hx|[<-|[]]]; [|exact Hm].
        apply (Hidx (k, bucket)); [now left | exact Hx].
      * apply (Hidx entry); [now right | exact Hx].
    + destruct Hin as [<-|Hin].
      * apply (Hidx (k, bucket)); [now left | exact Hx].
      * apply IH with (entry := entry); try assumption.
        intros e He. apply Hidx. now right.
Qed.

(** Every bucket of the index holds listings of the input only. *)
Lemma buildKeywordIndex_sub :
  forall entry, In entry (buildKeywordIndex markets) ->
                forall x, In x (snd entry) -> In x markets.
Proof.
  unfold buildKeywordIndex.
  apply (fold_left_invariant_In
           (fun index => forall entry, In entry index ->
                                       forall x, In x (snd entry) -> In x markets)).
  - intros index m Hm Hidx.
    apply (fold_left_invariant
             (fun index => forall entry, In entry index ->
                                         forall x, In x (snd entry) -> In x markets));
      [|exact Hidx].
    intros idx key H. now apply pushTo_buckets.
  - intros entry [].
Qed.

Lemma firstn_sub {A : Type} (n : nat) (l : list A) (x : A) : In x (firstn n l) -> In x l.
Proof.
  revert l. induction n as [|n IH]; intros [|y l]; simpl; try tauto.
  intros [->|H]; [now left | right; now apply IH].
Qed.

Lemma sortedBucket_sub (bucket : list StandardizedMarket) (x : StandardizedMarket) :
  In x (sortedBucket bucket) -> In x bucket.
Proof.
  unfold sortedBucket. intros H. apply firstn_sub in H. now apply sortBy_In in H.
Qed.

(** A property of the scan state that every pair of input listings
    keeps, holds of the whole scan. *)
Lemma scanMarkets_invariant (P : Scan -> Prop) :
  P {| compared := []; opportunities := []; scored := [] |} ->
  (forall a b scan, In a markets -> In b markets -> P scan ->
                    P (comparePair minRoi a b scan)) ->
  P (scanMarkets markets minRoi).
Proof.
  intros Hinit Hstep. unfold scanMarkets.
  apply fold_left_invariant_In; [|exact Hinit].
  intros scan entry Hentry Hscan. unfold scanBucket.
  destruct (singlePlatform (snd entry)); [exact Hscan|].
  assert (Hsub : forall x, In x (sortedBucket (snd entry)) -> In x markets).
  { intros x Hx. apply (buildKeywordIndex_sub entry Hentry), sortedBucket_sub, Hx. }
  revert scan Hscan.
  induction (sortedBucket (snd entry)) as [|a rest IH]; intros scan Hscan; simpl;
    [exact Hscan|].
  apply IH.
  - intros x Hx. apply Hsub. now right.
  - apply fold_left_invariant_In; [|exact Hscan].
    intros s b Hb Hs. apply Hstep; [apply Hsub; now left | apply Hsub; now right | exact Hs].
Qed.

Lemma scan_markets_from_input :
  forall o, In o (opportunities (scanMarkets markets minRoi)) ->
            In (marketA o) markets /\ In (marketB o) markets.
Proof.
  apply (scanMarkets_invariant
           (fun scan => forall o, In o (opportunities scan) ->
                                  In (marketA o) markets /\ In (marketB o) markets)).
  - intros o [].
  - intros a b scan Ha Hb Hscan o Ho. unfold comparePair in Ho.
    destruct (platform_eqb (platform a) (platform b)); [now apply Hscan|].
    destruct (mem (pairKey a b) (compared scan)); [now apply Hscan|].
    destruct (calculateSimilarity a b) as [score reason].
    cbn [opportunities] in Ho. apply in_app_or in Ho as [Ho|Ho]; [now apply Hscan|].
    destruct (score <? minSimilarity)%Z; [destruct Ho|].
    apply scenarios_In in Ho as ([(-> & -> & _)|(-> & -> & _)] & _); split; assumption.
Qed.

End ScanMembership.

Section ScanOutput.

Import MarketApi.

(** X7.  Both listings of every reported opportunity are listings of the
    input. *)
Theorem opportunities_pair_input_listings :
  forall (markets : list StandardizedMarket) (minRoi : Q) (o : ArbitrageOpportunity),
    In o (findArbitrageOpportunities markets minRoi) ->
    In (marketA o) markets /\ In (marketB o) markets.
Proof.
  intros markets minRoi o Ho. unfold findArbitrageOpportunities in Ho.
  apply sortBy_In in Ho. now apply scan_markets_from_input in Ho.
Qed.

Lemma opportunities_pair_input_listings_witness :
  In (marketA Samples.fedOpportunity) [Samples.fedKalshi; Samples.fedPolymarket] /\
  In (marketB Samples.fedOpportunity) [Samples.fedKalshi; Samples.fedPolymarket].
Proof.
  apply (opportunities_pair_input_listings [Samples.fedKalshi; Samples.fedPolymarket] 0).
  vm_compute. left. reflexivity.
Defined.

(** X8.  Listings that all come from one venue (in particular an empty
    input) yield no opportunity. *)
Theorem single_venue_no_opportunity :
  forall (markets : list StandardizedMarket) (minRoi : Q) (venue : Platform),
    (forall m, In m markets -> platform m = venue) ->
    findArbitrageOpportunities markets minRoi = [].
Proof.
  intros markets minRoi venue Hall.
  destruct (findArbitrageOpportunities markets minRoi) as [|o rest] eqn:E; [reflexivity|].
  exfalso.
  assert (Ho : In o (findArbitrageOpportunities markets minRoi)) by (rewrite E; now left).
  assert (Hscan : In o (opportunities (scanMarkets markets minRoi))).
  { unfold findArbitrageOpportunities in Ho. now apply sortBy_In in Ho. }
  destruct (scan_markets_from_input markets minRoi o Hscan) as [HA HB].
  destruct (findArbitrageOpportunities_emitted minRoi markets o Ho) as (a & b & Hp & _ & Hin).
  apply scenarios_In in Hin as ([(EA & EB & _)|(EA & EB & _)] & _);
    rewrite EA in HA; rewrite EB in HB;
    apply Hp; rewrite (Hall _ HA), (Hall _ HB); reflexivity.
Qed.

Lemma single_venue_no_opportunity_witness :
  findArbitrageOpportunities
    [Samples.fedKalshi; Samples.biden2025; Samples.tariffs2025] 0 = [].
Proof.
  apply (single_venue_no_opportunity
           [Samples.fedKalshi; Samples.biden2025; Samples.tariffs2025] 0 Kalshi).
  intros m [<-|[<-|[<-|[]]]]; reflexivity.
Defined.


Lemma jsge_mono (x : jsnum) (r1 r2 : Q) :
  r1 <= r2 -> jsge x (Fin r2) = true -> jsge x (Fin r1) = true.
Proof.
  intros Hle. destruct x; simpl; try tauto.
  rewrite !Qle_bool_iff. intros H. lra.
Qed.

(** The same loop run on two states that are related stays related. *)
Lemma fold_left_related {S1 S2 X : Type} (R : S1 -> S2 -> Prop)
    (step1 : S1 -> X -> S1) (step2 : S2 -> X -> S2) (xs : list X) :
  (forall s1 s2 x, R s1 s2 -> R (step1 s1 x) (step2 s2 x)) ->
  forall s1 s2, R s1 s2 -> R (fold_left step1 xs s1) (fold_left step2 xs s2).
Proof.
  intros Hstep. induction xs as [|x rest IH]; intros s1 s2 H; simpl; [exact H|].
  apply IH, Hstep, H.
Qed.

Section Thresholds.

Variables r1 r2 : Q.
Hypothesis r1_le_r2 : r1 <= r2.

Lemma scenarios_filter (a b : StandardizedMarket) (score : Z) (reason : string) :
  scenarios r2 a b score reason = filter (keepAtLeast r2) (scenarios r1 a b score reason).
Proof.
  unfold scenarios. cbv zeta. rewrite filter_app. f_equal.
  - destruct (Qlt_bool (yesPrice a + noPrice b) 1); [|reflexivity].
    destruct (jsge _ (Fin r1)) eqn:E1, (jsge _ (Fin r2)) eqn:E2;
      simpl; unfold keepAtLeast; cbn [roi]; rewrite ?E2; try reflexivity.
    apply (jsge_mono _ r1 r2 r1_le_r2) in E2. congruence.
  - destruct (Qlt_bool (noPrice a + yesPrice b) 1); [|reflexivity].
    destruct (jsge _ (Fin r1)) eqn:E1, (jsge _ (Fin r2)) eqn:E2;
      simpl; unfold keepAtLeast; cbn [roi]; rewrite ?E2; try reflexivity.
    apply (jsge_mono _ r1 r2 r1_le_r2) in E2. congruence.
Qed.

Lemma comparePair_filtered (a b : StandardizedMarket) (low high : Scan) :
  filtered r2 low high -> filtered r2 (comparePair r1 a b low) (comparePair r2 a b high).
Proof.
  intros (Hc & Hs & Ho). unfold comparePair. rewrite Hc.
  destruct (platform_eqb (platform a) (platform b)); [now repeat split|].
  destruct (mem (pairKey a b) (compared low)); [now repeat split|].
  destruct (calculateSimilarity a b) as [score reason].
  unfold filtered. cbn [compared scored opportunities].
  rewrite Hs, Ho, filter_app. repeat split.
  f_equal. destruct (score <? minSimilarity)%Z; [reflexivity|apply scenarios_filter].
Qed.

Lemma scanMarkets_filtered (markets : list StandardizedMarket) :
  filtered r2 (scanMarkets markets r1) (scanMarkets markets r2).
Proof.
  unfold scanMarkets. apply fold_left_related; [|now repeat split].
  intros low high entry H. unfold scanBucket.
  destruct (singlePlatform (snd entry)); [exact H|].
  revert low high H.
  induction (sortedBucket (snd entry)) as [|a rest IH]; intros low high H; simpl;
    [exact H|].
  apply IH. apply fold_left_related; [|exact H].
  intros s1 s2 b. apply comparePair_filtered.
Qed.

End Thresholds.

(** X9.  Raising the minimum ROI only filters: the opportunities
    reported at a threshold [r2 >= r1] are those reported at [r1] whose
    ROI is at least [r2]. *)
Theorem raising_minRoi_filters :
  forall (markets : list StandardizedMarket) (r1 r2 : Q) (o : ArbitrageOpportunity),
    r1 <= r2 ->
    (In o (findArbitrageOpportunities markets r2) <->
     In o (findArbitrageOpportunities markets r1) /\ jsge (roi o) (Fin r2) = true).
Proof.
  intros markets r1 r2 o Hle. unfold findArbitrageOpportunities.
  rewrite !sortBy_In.
  destruct (scanMarkets_filtered r1 r2 Hle markets) as (_ & _ & ->).
  apply filter_In.
Qed.

Lemma raising_minRoi_filters_witness :
  In Samples.fedOpportunity
     (findArbitrageOpportunities [Samples.fedKalshi; Samples.fedPolymarket] 5) <->
  In Samples.fedOpportunity
     (findArbitrageOpportunities [Samples.fedKalshi; Samples.fedPolymarket] 0) /\
  jsge (roi Samples.fedOpportunity) (Fin 5) = true.
Proof.
  apply (raising_minRoi_filters [Samples.fedKalshi; Samples.fedPolymarket] 0 5).
  discriminate.
Defined.

End ScanOutput.

Section BucketOrder.

Import MarketApi.

Let after (a b : StandardizedMarket) : bool := Qlt_bool 0 (volume b - volume a).

Lemma after_true (y x : StandardizedMarket) : after y x = true -> volume y <= volume x.
Proof.
  unfold after, Qlt_bool. intros H. apply negb_true_iff in H.
  destruct (Qlt_le_dec (volume x) (volume y)) as [Hlt|Hle]; [|exact Hle].
  exfalso. assert (Hb : Qle_bool (volume x - volume y) 0 = true)
    by (apply Qle_bool_iff; lra).
  congruence.
Qed.

Lemma after_false (y x : StandardizedMarket) : after y x = false -> volume x <= volume y.
Proof.
  unfold after, Qlt_bool. intros H. apply negb_false_iff, Qle_bool_iff in H. lra.
Qed.

Lemma insertBy_byVolume (x : StandardizedMarket) (sorted : list StandardizedMarket) :
  StronglySorted byVolume sorted -> StronglySorted byVolume (insertBy after x sorted).
Proof.
  induction sorted as [|y rest IH]; intros Hs; simpl.
  - repeat constructor.
  - inversion Hs as [|? ? Hrest Hy]; subst.
    destruct (after y x) eqn:E.
    + constructor; [exact Hs|]. apply after_true in E.
      constructor; [exact E|].
      rewrite Forall_forall in *. intros z Hz. specialize (Hy z Hz).
      unfold byVolume in *. lra.
    + constructor; [now apply IH|]. apply after_false in E.
      rewrite Forall_forall in *. intros z Hz.
      apply (Permutation_in _ (insertBy_perm after x rest)) in Hz.
      destruct Hz as [<-|Hz]; [exact E | now apply Hy].
Qed.

Lemma sortBy_byVolume (array : list StandardizedMarket) :
  StronglySorted byVolume (sortBy after array).
Proof.
  unfold sortBy. apply fold_left_invariant; [|constructor].
  intros sorted x. apply insertBy_byVolume.
Qed.

Lemma sorted_firstn {A : Type} (R : A -> A -> Prop) (n : nat) (l : list A) :
  StronglySorted R l -> StronglySorted R (firstn n l).
Proof.
  revert l. induction n as [|n IH]; intros [|x l] Hs; simpl; try constructor.
  - inversion Hs; subst. now apply IH.
  - inversion Hs as [|? ? _ Hx]; subst.
    rewrite Forall_forall in *. intros y Hy. apply Hx. now apply firstn_sub in Hy.
Qed.

Lemma sorted_split {A : Type} (R : A -> A -> Prop) (l1 l2 : list A) :
  StronglySorted R (l1 ++ l2) -> forall x y, In x l1 -> In y l2 -> R x y.
Proof.
  induction l1 as [|z l1 IH]; intros Hs x y Hx Hy; [destruct Hx|].
  simpl in Hs. inversion Hs as [|? ? Hrest Hz]; subst.
  destruct Hx as [<-|Hx].
  - rewrite Forall_forall in Hz. apply Hz, in_or_app. now right.
  - now apply IH.
Qed.

(** X10.  The bucket the loops see holds at most [MAX_BUCKET_SIZE]
    listings of the bucket, highest volume first; a listing that the cut
    removes has no more volume than any listing kept; and a bucket within
    the size limit is kept whole. *)
Theorem sortedBucket_keeps_highest_volume :
  forall bucket : list StandardizedMarket,
    (List.length (sortedBucket bucket) <= MAX_BUCKET_SIZE)%nat /\
    StronglySorted byVolume (sortedBucket bucket) /\
    (forall kept cut, In kept (sortedBucket bucket) ->
                      In cut bucket -> ~ In cut (sortedBucket bucket) ->
                      volume cut <= volume kept) /\
    ((List.length bucket <= MAX_BUCKET_SIZE)%nat ->
     Permutation (sortedBucket bucket) bucket).
Proof.
  intros bucket. unfold sortedBucket. fold after.
  set (sorted := sortBy after bucket).
  assert (Hsorted : StronglySorted byVolume sorted) by apply sortBy_byVolume.
  repeat split.
  - apply firstn_le_length.
  - now apply sorted_firstn.
  - intros kept cut Hkept Hcut Hnot.
    apply (sorted_split byVolume (firstn MAX_BUCKET_SIZE sorted)
                        (skipn MAX_BUCKET_SIZE sorted)); [| exact Hkept |].
    + rewrite firstn_skipn. exact Hsorted.
    + apply (sortBy_In after) in Hcut. fold sorted in Hcut.
      rewrite <- (firstn_skipn MAX_BUCKET_SIZE sorted) in Hcut.
      apply in_app_or in Hcut as [Hcut|Hcut]; [contradiction | exact Hcut].
  - intros Hlen. rewrite firstn_all2.
    + apply sortBy_perm.
    + unfold sorted. rewrite (Permutation_length (sortBy_perm after bucket)). exact Hlen.
Qed.

End BucketOrder.

Section PairKeys.

Import MarketApi.

(** A dash-free prefix before the separator can be read back. *)
Lemma dash_join_inj (x u y v : string) :
  dashFree x = true -> dashFree u = true ->
  (x ++ "-" ++ y = u ++ "-" ++ v)%string -> x = u /\ y = v.
Proof.
  revert u. induction x as [|c x IH]; intros [|d u] Hx Hu H; simpl in *.
  - injection H as ->. now split.
  - injection H as <- _. apply andb_true_iff in Hu as [Hu _]. discriminate.
  - injection H as -> _. apply andb_true_iff in Hx as [Hx _]. discriminate.
  - injection H as -> H.
    apply andb_true_iff in Hx as [_ Hx]. apply andb_true_iff in Hu as [_ Hu].
    destruct (IH u Hx Hu H) as [-> ->]. now split.
Qed.

(** With dash-free ids the key tells the two ids of the pair. *)
Lemma pairKey_inj (a b c d : StandardizedMarket) :
  dashFree (id a) = true -> dashFree (id b) = true ->
  dashFree (id c) = true -> dashFree (id d) = true ->
  pairKey a b = pairKey c d ->
  (id a = id c /\ id b = id d) \/ (id a = id d /\ id b = id c).
Proof.
  intros Ha Hb Hc Hd. unfold pairKey.
  destruct (String.ltb (id b) (id a)), (String.ltb (id d) (id c)); intros H;
    apply dash_join_inj in H; try assumption; destruct H as [H1 H2]; auto.
Qed.

Lemma same_id_same_listing (markets : list StandardizedMarket) :
  NoDup (map id markets) ->
  forall x y, In x markets -> In y markets -> id x = id y -> x = y.
Proof.
  induction markets as [|m rest IH]; intros Hnd x y Hx Hy E; [destruct Hx|].
  simpl in Hnd. inversion Hnd as [|? ? Hnot Hrest]; subst.
  destruct Hx as [<-|Hx], Hy as [<-|Hy]; try reflexivity.
  - exfalso. apply Hnot. rewrite E. now apply in_map.
  - exfalso. apply Hnot. rewrite <- E. now apply in_map.
  - now apply IH.
Qed.

Lemma allPairs_complete (l : list StandardizedMarket) (a b : StandardizedMarket) :
  In a l -> In b l -> a <> b -> In (a, b) (allPairs l) \/ In (b, a) (allPairs l).
Proof.
  induction l as [|x rest IH]; intros Ha Hb Hne; [destruct Ha|].
  simpl. rewrite !in_app_iff, !in_map_iff.
  destruct Ha as [->|Ha], Hb as [->|Hb].
  - congruence.
  - left. left. now exists b.
  - right. left. now exists a.
  - destruct (IH Ha Hb Hne) as [H|H]; [left|right]; now right.
Qed.

Variable minRoi : Q.

Lemma comparePair_grows (a b : StandardizedMarket) (scan : Scan) (key : string) :
  In key (compared scan) -> In key (compared (comparePair minRoi a b scan)).
Proof.
  intros H. unfold comparePair.
  destruct (platform_eqb (platform a) (platform b)); [exact H|].
  destruct (mem (pairKey a b) (compared scan)); [exact H|].
  destruct (calculateSimilarity a b). cbn [compared].
  apply setAdd_In. now right.
Qed.

Lemma comparePair_records (a b : StandardizedMarket) (scan : Scan) :
  platform a <> platform b ->
  In (pairKey a b) (compared (comparePair minRoi a b scan)).
Proof.
  intros Hp. unfold comparePair.
  destruct (platform_eqb (platform a) (platform b)) eqn:E.
  - apply platform_eqb_eq in E. contradiction.
  - destruct (mem (pairKey a b) (compared scan)) eqn:Em; [now apply mem_In|].
    destruct (calculateSimilarity a b). cbn [compared].
    apply setAdd_In. now left.
Qed.

Lemma inner_loop_grows (a : StandardizedMarket) (rest : list StandardizedMarket)
    (scan : Scan) (key : string) :
  In key (compared scan) ->
  In key (compared (fold_left (fun scan b => comparePair minRoi a b scan) rest scan)).
Proof.
  intros H. apply (fold_left_invariant (fun s => In key (compared s))); [|exact H].
  intros s b. apply comparePair_grows.
Qed.

Lemma inner_loop_records (a b : StandardizedMarket) (rest : list StandardizedMarket)
    (scan : Scan) :
  In b rest -> platform a <> platform b ->
  In (pairKey a b)
     (compared (fold_left (fun scan b => comparePair minRoi a b scan) rest scan)).
Proof.
  revert scan. induction rest as [|x rest IH]; intros scan Hb Hp; [destruct Hb|].
  simpl. destruct Hb as [->|Hb].
  - apply inner_loop_grows. now apply comparePair_records.
  - now apply IH.
Qed.

Lemma comparePairs_grows (l : list StandardizedMarket) (scan : Scan) (key : string) :
  In key (compared scan) -> In key (compared (comparePairs minRoi l scan)).
Proof.
  revert scan. induction l as [|a rest IH]; intros scan H; simpl; [exact H|].
  apply IH. now apply inner_loop_grows.
Qed.

Lemma comparePairs_records (l : list StandardizedMarket) (scan : Scan)
    (a b : StandardizedMarket) :
  In (a, b) (allPairs l) -> platform a <> platform b ->
  In (pairKey a b) (compared (comparePairs minRoi l scan)).
Proof.
  revert scan. induction l as [|x rest IH]; intros scan Hin Hp; [destruct Hin|].
  simpl in *. apply in_app_or in Hin as [Hin|Hin].
  - apply in_map_iff in Hin as (b' & E & Hb). injection E as <- <-.
    apply comparePairs_grows. now apply inner_loop_records.
  - now apply IH.
Qed.

Lemma scanBucket_grows (scan : Scan) (entry : string * list StandardizedMarket)
    (key : string) :
  In key (compared scan) -> In key (compared (scanBucket minRoi scan entry)).
Proof.
  intros H. unfold scanBucket. destruct (singlePlatform (snd entry)); [exact H|].
  now apply comparePairs_grows.
Qed.

(** After the scan the key of every cross-venue pair of every retained
    bucket is in the seen-pairs set. *)
Lemma scanMarkets_records (markets : list StandardizedMarket)
    (entry : string * list StandardizedMarket) (a b : StandardizedMarket) :
  In entry (buildKeywordIndex markets) -> singlePlatform (snd entry) = false ->
  In a (sortedBucket (snd entry)) -> In b (sortedBucket (snd entry)) ->
  platform a <> platform b ->
  In (pairKey a b) (compared (scanMarkets markets minRoi)).
Proof.
  intros Hentry Hsingle Ha Hb Hp. unfold scanMarkets.
  generalize {| compared := []; opportunities := []; scored := [] |}.
  induction (buildKeywordIndex markets) as [|e rest IH]; intros scan; [destruct Hentry|].
  simpl. destruct Hentry as [->|Hentry]; [|now apply IH].
  apply (fold_left_invariant (fun s => In (pairKey a b) (compared s))).
  - intros s x. apply scanBucket_grows.
  - unfold scanBucket. rewrite Hsingle.
    assert (Hne : a <> b) by congruence.
    destruct (allPairs_complete _ a b Ha Hb Hne) as [H|H].
    + now apply comparePairs_records.
    + rewrite pairKey_sym. apply comparePairs_records; [exact H | congruence].
Qed.

(** The scored pairs are cross-venue pairs of input listings. *)
Lemma scored_pairs_spec (markets : list StandardizedMarket) :
  forall pair, In pair (scored (scanMarkets markets minRoi)) ->
               In (fst pair) markets /\ In (snd pair) markets /\
               platform (fst pair) <> platform (snd pair).
Proof.
  apply (scanMarkets_invariant markets minRoi
           (fun scan => forall pair, In pair (scored scan) ->
                                     In (fst pair) markets /\ In (snd pair) markets /\
                                     platform (fst pair) <> platform (snd pair))).
  - intros pair [].
  - intros a b scan Ha Hb Hscan pair Hpair. unfold comparePair in Hpair.
    destruct (platform_eqb (platform a) (platform b)) eqn:E; [now apply Hscan|].
    destruct (mem (pairKey a b) (compared scan)); [now apply Hscan|].
    destruct (calculateSimilarity a b). cbn [scored] in Hpair.
    apply in_app_or in Hpair as [Hpair|[<-|[]]]; [now apply Hscan|].
    repeat split; try assumption.
    cbn [fst snd]. intros Ep. apply platform_eqb_eq in Ep. congruence.
Qed.

Lemma scanMarkets_seen_once (markets : list StandardizedMarket) :
  seen_once (scanMarkets markets minRoi).
Proof.
  apply (scanMarkets_invariant markets minRoi seen_once).
  - split; [reflexivity|constructor].
  - intros a b scan _ _. apply comparePair_seen_once.
Qed.

Lemma NoDup_map_inj {A B : Type} (f : A -> B) (l : list A) (x y : A) :
  NoDup (map f l) -> In x l -> In y l -> f x = f y -> x = y.
Proof.
  induction l as [|z l IH]; intros Hnd Hx Hy E; [destruct Hx|].
  simpl in Hnd. inversion Hnd as [|? ? Hnot Hrest]; subst.
  destruct Hx as [<-|Hx], Hy as [<-|Hy]; try reflexivity.
  - exfalso. apply Hnot. rewrite E. now apply in_map.
  - exfalso. apply Hnot. rewrite <- E. now apply in_map.
  - now apply IH.
Qed.

End PairKeys.

Section ScoredOnce.

Import MarketApi.

(** X11.  No pair of listings is handed to the scorer twice, in the
    same or in the opposite order, whatever the ids. *)
Theorem never_scored_twice :
  forall (markets : list StandardizedMarket) (minRoi : Q),
    NoDup (scored (scanMarkets markets minRoi)) /\
    forall a b, In (a, b) (scored (scanMarkets markets minRoi)) ->
                ~ In (b, a) (scored (scanMarkets markets minRoi)).
Proof.
  intros markets minRoi.
  destruct (scanMarkets_seen_once minRoi markets) as [Hkeys Hnd].
  rewrite Hkeys in Hnd. split.
  - apply (NoDup_map_inv keyOf). exact Hnd.
  - intros a b Hab Hba.
    assert (E : (a, b) = (b, a)).
    { apply (NoDup_map_inj keyOf _ _ _ Hnd Hab Hba). apply pairKey_sym. }
    injection E as -> _.
    apply (scored_pairs_spec minRoi markets) in Hab as (_ & _ & Hp). now apply Hp.
Qed.

(** X12.  When the ids of the input are distinct and hold no dash, every
    cross-venue pair of every retained bucket, as cut to size, is handed
    to the scorer exactly once: in one of its two orders, not in both. *)
Theorem cross_venue_pairs_scored_once :
  forall (markets : list StandardizedMarket) (minRoi : Q),
    NoDup (map id markets) ->
    (forall m, In m markets -> dashFree (id m) = true) ->
    forall (entry : string * list StandardizedMarket) (a b : StandardizedMarket),
      In entry (buildKeywordIndex markets) -> singlePlatform (snd entry) = false ->
      In a (sortedBucket (snd entry)) -> In b (sortedBucket (snd entry)) ->
      platform a <> platform b ->
      (In (a, b) (scored (scanMarkets markets minRoi)) \/
       In (b, a) (scored (scanMarkets markets minRoi))) /\
      ~ (In (a, b) (scored (scanMarkets markets minRoi)) /\
         In (b, a) (scored (scanMarkets markets minRoi))) /\
      NoDup (scored (scanMarkets markets minRoi)).
Proof.
  intros markets minRoi Hids Hdash entry a b Hentry Hsingle Ha Hb Hp.
  assert (HaM : In a markets)
    by (apply (buildKeywordIndex_sub markets entry Hentry), sortedBucket_sub, Ha).
  assert (HbM : In b markets)
    by (apply (buildKeywordIndex_sub markets entry Hentry), sortedBucket_sub, Hb).
  pose proof (scanMarkets_records minRoi markets entry a b Hentry Hsingle Ha Hb Hp) as Hkey.
  destruct (scanMarkets_seen_once minRoi markets) as [Hkeys Hnd].
  rewrite Hkeys in Hkey, Hnd.
  split; [|split].
  - apply in_map_iff in Hkey as ([c d] & E & Hcd). unfold keyOf in E. cbn [fst snd] in E.
    destruct (scored_pairs_spec minRoi markets _ Hcd) as (Hc & Hd & _). cbn [fst snd] in Hc, Hd.
    destruct (pairKey_inj c d a b (Hdash _ Hc) (Hdash _ Hd) (Hdash _ HaM) (Hdash _ HbM) E)
      as [[E1 E2]|[E1 E2]];
      apply (same_id_same_listing markets Hids) in E1; try assumption;
      apply (same_id_same_listing markets Hids) in E2; try assumption; subst; auto.
  - intros [Hab Hba].
    assert (E : (a, b) = (b, a)).
    { apply (NoDup_map_inj keyOf _ _ _ Hnd Hab Hba). apply pairKey_sym. }
    injection E as -> _. now apply Hp.
  - apply (NoDup_map_inv keyOf). exact Hnd.
Qed.

End ScoredOnce.

Section ScoredOnceWitness.

Import MarketApi.

Lemma cross_venue_pairs_scored_once_witness :
  (In (Samples.vanceKalshi, Samples.vancePolymarket)
      (scored (scanMarkets Samples.vanceMarkets 0)) \/
   In (Samples.vancePolymarket, Samples.vanceKalshi)
      (scored (scanMarkets Samples.vanceMarkets 0))) /\
  ~ (In (Samples.vanceKalshi, Samples.vancePolymarket)
        (scored (scanMarkets Samples.vanceMarkets 0)) /\
     In (Samples.vancePolymarket, Samples.vanceKalshi)
        (scored (scanMarkets Samples.vanceMarkets 0))) /\
  NoDup (scored (scanMarkets Samples.vanceMarkets 0)).
Proof.
  apply (cross_venue_pairs_scored_once Samples.vanceMarkets 0)
    with (entry := ("vance"%string, Samples.vanceMarkets)).
  - vm_compute. repeat constructor; simpl; intuition discriminate.
  - intros m [<-|[<-|[<-|[]]]]; reflexivity.
  - vm_compute. left. reflexivity.
  - reflexivity.
  - vm_compute. auto.
  - vm_compute. auto.
  - discriminate.
Defined.

End ScoredOnceWitness.

Section OpportunityFigures.

Import MarketApi.



(** X14.  When each of two listings has complementary prices
    ([yes + no = 1]), the output never holds both orientations of the
    pair: at most one of the two scenarios costs less than 1. *)
Theorem complementary_prices_one_orientation :
  forall (markets : list StandardizedMarket) (minRoi : Q) (o1 o2 : ArbitrageOpportunity),
    In o1 (findArbitrageOpportunities markets minRoi) ->
    In o2 (findArbitrageOpportunities markets minRoi) ->
    yesPrice (marketA o1) + noPrice (marketA o1) == 1 ->
    yesPrice (marketB o1) + noPrice (marketB o1) == 1 ->
    ~ (marketA o2 = marketB o1 /\ marketB o2 = marketA o1).
Proof.
  intros markets minRoi o1 o2 H1 H2 HA HB [EA EB].
  destruct (findArbitrageOpportunities_emitted minRoi markets o1 H1) as (a & b & _ & _ & Hin1).
  destruct (findArbitrageOpportunities_emitted minRoi markets o2 H2) as (c & d & _ & _ & Hin2).
  apply scenarios_In in Hin1 as (Hs1 & Hc1 & _).
  apply scenarios_In in Hin2 as (Hs2 & Hc2 & _).
  assert (E1 : combinedYesCost o1 == yesPrice (marketA o1) + noPrice (marketB o1)).
  { destruct Hs1 as [(-> & -> & ->)|(-> & -> & ->)]; lra. }
  assert (E2 : combinedYesCost o2 == yesPrice (marketA o2) + noPrice (marketB o2)).
  { destruct Hs2 as [(-> & -> & ->)|(-> & -> & ->)]; lra. }
  rewrite EA, EB in E2. lra.
Qed.

Lemma complementary_prices_one_orientation_witness :
  ~ (marketA Samples.fedOpportunity = marketB Samples.fedOpportunity /\
     marketB Samples.fedOpportunity = marketA Samples.fedOpportunity).
Proof.
  apply (complementary_prices_one_orientation
           [Samples.fedKalshi; Samples.fedPolymarket] 0
           Samples.fedOpportunity Samples.fedOpportunity).
  - vm_compute. left. reflexivity.
  - vm_compute. left. reflexivity.
  - reflexivity.
  - reflexivity.
Defined.

End OpportunityFigures.

(* ================================================================= *)
(** * Further properties of the ROI calculator *)

Section SentinelFacts.

Variables (platformA platformB : string) (mode : OrderMode).






End SentinelFacts.

